(** * pretty-express: the controller generator

    A shallow embedding of [src/generators/controller.generator.ts]:
    [generateSortedParams], [generateRequestHandler], [generateRouter] and
    [combineControllers], together with the part of the Express router
    interface they call, and the properties of the argument ordering, of the
    result translation and of the assembled router. *)

From Stdlib Require Import List ZArith String Bool Lia Permutation Sorted.
Import ListNotations.

Set Warnings "-register-all".

Local Open Scope string_scope.
Local Open Scope Z_scope.
Local Open Scope list_scope.

(** ** JavaScript values *)

(** What a promise eventually does.  The generated handler runs to
    completion before any reaction to a settlement could run, so the
    settlement is data the handler cannot observe. *)
Inductive Settlement (A : Type) : Type :=
| Pending
| Fulfilled (value : A)
| Rejected (reason : A).

Arguments Pending {A}.
Arguments Fulfilled {A} value.
Arguments Rejected {A} reason.

(** The values that flow through the handler.  [VObj] is a plain object
    (its own enumerable properties, in enumeration order); [VHost] and
    [VFun] are opaque host objects and functions, known by identity.  A
    value is a finite tree and the type has no BigInt, the two kinds of input
    on which [JSON.stringify] throws are cyclic objects and BigInts, so
    every value of this type serialises. *)
Inductive Value : Type :=
| VUndefined
| VNull
| VBool (b : bool)
| VNum (n : Z)
| VStr (s : string)
| VArr (items : list Value)
| VObj (props : list (string * Value))
| VHost (id : nat) (props : list (string * Value))
| VFun (id : nat)
| VError (name message : string)
| VPromise (settlement : Settlement Value)
| VHttpResponse (status : Z) (json : Value).

(** Modelled from the spec: the class [HttpResponse] of [../models], a value
    object wrapping a status and a json payload.  [VHttpResponse] is an
    instance of that class, with its two fields; every other constructor of
    [Value] is a value whose prototype chain does not hold
    [HttpResponse.prototype]. *)
Definition instanceof_HttpResponse (v : Value) : bool :=
  match v with
  | VHttpResponse _ _ => true
  | _ => false
  end.

(** A completion record: a normal result or a thrown value. *)
Inductive Completion (A : Type) : Type :=
| Normal (result : A)
| Throw (error : Value).

Arguments Normal {A} result.
Arguments Throw {A} error.

Fixpoint assoc {A : Type} (key : string) (props : list (string * A)) : option A :=
  match props with
  | [] => None
  | (k, v) :: rest => if String.eqb key k then Some v else assoc key rest
  end.

(** Property read [o.key] on a value that is not null or undefined.  Of the
    five names the generator reads, only objects can carry one. *)
Definition get_prop (o : Value) (key : string) : Value :=
  match o with
  | VObj props | VHost _ props =>
      match assoc key props with
      | Some v => v
      | None => VUndefined
      end
  | _ => VUndefined
  end.

Definition TypeError (message : string) : Value := VError "TypeError" message.

(** The five facets read by [const { body, params, query, file, files } = req]. *)
Record Facets : Type := mkFacets {
  body : Value;
  params : Value;
  query : Value;
  file : Value;
  files : Value
}.

(** Destructuring throws on null and undefined, and reads properties of
    anything else. *)
Definition destructure (req : Value) : Completion Facets :=
  match req with
  | VUndefined =>
      Throw (TypeError
               "Cannot destructure property 'body' of 'req' as it is undefined.")
  | VNull =>
      Throw (TypeError
               "Cannot destructure property 'body' of 'req' as it is null.")
  | _ =>
      Normal (mkFacets (get_prop req "body") (get_prop req "params")
                       (get_prop req "query") (get_prop req "file")
                       (get_prop req "files"))
  end.

(** ** ParamsIndex *)

(** [IParamsMetaData | any]: the object's own enumerable properties in the
    order [Object.keys] lists them; a property may be present and hold
    [undefined] ([None]).  The weight of a bound key is an integer. *)
Definition ParamsObject : Type := list (string * option Z).

(** [paramsIndex[key]]: a missing property reads as [undefined] too. *)
Definition pi_get (paramsIndex : ParamsObject) (key : string) : option Z :=
  match assoc key paramsIndex with
  | Some w => w
  | None => None
  end.

(** [Object.keys(paramsIndex)] on an object. *)
Definition Object_keys (paramsIndex : ParamsObject) : list string :=
  map fst paramsIndex.

(** ** generateSortedParams *)

Record Param : Type := mkParam {
  weight : Z;
  value : Value;
  key : option string
}.

(** The chain of [if (key === ...)] over [let value = null]. *)
Definition resolve (f : Facets) (k : string) : Value :=
  let value := VNull in
  let value := if String.eqb k "bodyIndex" then body f else value in
  let value := if String.eqb k "paramsIndex" then params f else value in
  let value := if String.eqb k "queryIndex" then query f else value in
  let value := if String.eqb k "fileIndex" then file f else value in
  let value := if String.eqb k "filesIndex" then files f else value in
  value.

(** [.filter((item) => paramsIndex[item] !== undefined)] *)
Definition bound_keys (paramsIndex : ParamsObject) (keys : list string) : list string :=
  filter (fun item => match pi_get paramsIndex item with
                      | Some _ => true
                      | None => false
                      end) keys.

(** The body of the [forEach]: one push per key.  A key that survived the
    filter has a weight; the other branch pushes nothing. *)
Definition push_param (paramsIndex : ParamsObject) (f : Facets)
           (sortedParams : list Param) (k : string) : list Param :=
  match pi_get paramsIndex k with
  | Some w => sortedParams ++ [mkParam w (resolve f k) (Some k)]
  | None => sortedParams
  end.

(** The comparator [(a, b) => a.weight - b.weight]. *)
Definition compare_weight (a b : Param) : Z := weight a - weight b.

(** [Array.prototype.sort] is a stable sort: an element moves in front of
    another only when the comparator is negative on them.  Insertion sort
    from the right is such a sort. *)
Fixpoint insert_param (a : Param) (l : list Param) : list Param :=
  match l with
  | [] => [a]
  | b :: rest =>
      if 0 <? compare_weight a b then b :: insert_param a rest
      else a :: b :: rest
  end.

Fixpoint sort_params (l : list Param) : list Param :=
  match l with
  | [] => []
  | a :: rest => insert_param a (sort_params rest)
  end.

(** The array before it is sorted: request, response and next at the
    reserved weights, then one entry per bound key. *)
Definition collect_params (req res next : Value) (f : Facets)
           (paramsIndex : ParamsObject) (keys : list string) : list Param :=
  fold_left (push_param paramsIndex f)
            (bound_keys paramsIndex keys)
            [mkParam 100 req None; mkParam 101 res None; mkParam 102 next None].

(** [paramsIndex] is [None] when it is null or undefined; [Object.keys]
    throws on it, after the request has been destructured. *)
Definition generateSortedParams (req res next : Value)
           (paramsIndex : option ParamsObject) : Completion (list Value) :=
  match destructure req with
  | Throw e => Throw e
  | Normal f =>
      match paramsIndex with
      | None => Throw (TypeError "Cannot convert undefined or null to object")
      | Some o =>
          let sortedParams := collect_params req res next f o (Object_keys o) in
          let sortedParams := sort_params sortedParams in
          let finalParams := map value sortedParams in
          Normal finalParams
      end
  end.

(** ** Effects *)

(** A computation: the events it performed, and how it completed. *)
Definition Eff (E A : Type) : Type := (list E * Completion A)%type.

Definition ret {E A : Type} (a : A) : Eff E A := ([], Normal a).

Definition bind {E A B : Type} (m : Eff E A) (k : A -> Eff E B) : Eff E B :=
  match m with
  | (t, Normal a) => let (t', r) := k a in (t ++ t', r)
  | (t, Throw e) => (t, Throw e)
  end.

Definition lift {E A : Type} (c : Completion A) : Eff E A := ([], c).

Definition emit {E : Type} (ev : E) : Eff E unit := ([ev], Normal tt).

(** [try { m } catch (err) { handler err }] *)
Definition try_catch {E A : Type} (m : Eff E A) (handler : Value -> Eff E A) : Eff E A :=
  match m with
  | (t, Throw e) => let (t', r) := handler e in (t ++ t', r)
  | (t, Normal a) => (t, Normal a)
  end.

Notation "x <- m ;; k" := (bind m (fun x => k))
  (at level 61, m at next level, right associativity).
Notation "m ;;; k" := (bind m (fun _ => k))
  (at level 61, right associativity).

(** [items.forEach(body)], the loop state passed along. *)
Fixpoint forEach {E A S : Type} (items : list A) (body : S -> A -> Eff E S)
         (s : S) : Eff E S :=
  match items with
  | [] => ret s
  | item :: rest => s' <- body s item ;; forEach rest body s'
  end.

(** What a request handler does to its environment: it calls the controller
    method, [res.status], [res.json] and [next].  An event records a call
    the handler made, whether the call returned or threw.  [next] returns
    to its caller. *)
Inductive Event : Type :=
| Invoke (args : list Value)
| ResStatus (code : Z)
| ResJson (payload : Value)
| Next (err : Value).

(** A controller method: a function of its positional arguments that
    returns a value or throws. *)
Definition ControllerFunction : Type := list Value -> Completion Value.

Definition call (f : ControllerFunction) (args : list Value) : Eff Event Value :=
  emit (Invoke args) ;;; lift (f args).

Definition RangeError (message : string) : Value := VError "RangeError" message.

(** The conversion of an integer to a signed 32-bit integer, as [x | 0]
    computes it. *)
Definition ToInt32 (x : Z) : Z := (x + 2 ^ 31) mod 2 ^ 32 - 2 ^ 31.

(** The status codes the HTTP layer under Express accepts when the head of
    the response is written: it tests [statusCode | 0] against 100 and 999. *)
Definition valid_status (code : Z) : bool :=
  let statusCode := ToInt32 code in
  (100 <=? statusCode) && (statusCode <=? 999).

(** [res.status(code)] of Express 4: it stores the code, whatever it is,
    and returns the response for chaining.  The result is the response
    together with the code it now carries. *)
Definition res_status (res : Value) (code : Z) : Eff Event (Value * Z) :=
  emit (ResStatus code) ;;; ret (res, code).

(** [res.json(payload)]: it serialises the payload, which cannot fail on a
    [Value], and sends it; writing the head throws a RangeError when the
    status code the response carries is not between 100 and 999.
    Otherwise it returns the response. *)
Definition res_json (r : Value * Z) (payload : Value) : Eff Event Value :=
  emit (ResJson payload) ;;;
  if valid_status (snd r) then ret (fst r)
  else lift (Throw (RangeError "Invalid status code")).

Definition call_next (err : Value) : Eff Event unit := emit (Next err).

(** ** generateRequestHandler *)

Definition RequestHandler : Type := Value -> Value -> Value -> Eff Event Value.

Definition generateRequestHandler (controllerFunction : ControllerFunction)
           (paramsIndex : option ParamsObject) : RequestHandler :=
  fun req res next =>
    try_catch
      (sortedParams <- lift (generateSortedParams req res next paramsIndex) ;;
       controllerValue <- call controllerFunction sortedParams ;;
       match controllerValue with
       | VHttpResponse status json =>
           (* controllerValue instanceof HttpResponse *)
           r <- res_status res status ;; res_json r json
       | _ =>
           r <- res_status res 200 ;; res_json r controllerValue
       end)
      (fun err => call_next err ;;; ret VUndefined).

(** ** The Express router *)

(** Modelled from the spec: the HTTP verb of a method entry, declared in
    [../interfaces].  [router[item.method]] is the registration method of
    the router that bears the verb's name. *)
Inductive Verb : Type :=
| get | post | put | patch | delete | head | options | all.

(** A middleware or error middleware given in the metadata: a function the
    generator passes on without calling it, known by identity. *)
Definition IMiddleware : Type := nat.

(** A router is its stack of layers.  [router.use] pushes one layer per
    function, on the mount path; a verb method pushes one layer holding a
    route, whose own stack has one entry per handler. *)
Inductive Handler : Type :=
| Fn (f : IMiddleware)
| ValidationMiddleware (schema opts : Value)
| Generated (handler : RequestHandler)
| defaultValidationErrorHandler
| defaultHttpErrorMiddleware
| Mounted (stack : list Layer)
with Layer : Type :=
| UseLayer (path : string) (handle : Handler)
| RouteLayer (path : string) (method : Verb) (chain : list Handler).

Definition Router : Type := list Layer.

(** [Router()] *)
Definition Router_new : Router := [].

(** An argument of a registration call: a function or an array of them. *)
Inductive Arg : Type :=
| One (h : Handler)
| Many (hs : list Handler).

(** Express flattens the arrays among the arguments. *)
Definition flatten (args : list Arg) : list Handler :=
  flat_map (fun a => match a with One h => [h] | Many hs => hs end) args.

(** When Express creates a layer it compiles the layer's path into a
    regular expression, and a malformed pattern makes the compilation
    throw.  The compiler belongs to Express: it is a parameter of the
    router operations, a function of the path and of the [end] option of
    the layer (false for a mount, true for a route) that returns or throws. *)
Definition PathCompiler : Type := string -> bool -> Completion unit.

(** [router.use(path, ...fns)]: without functions Express throws; with
    functions it creates one layer per function on the path, and the
    creation of the first one throws when the path does not compile. *)
Definition use_path {E : Type} (pathRegexp : PathCompiler) (router : Router)
           (path : string) (fns : list Arg) : Eff E Router :=
  match flatten fns with
  | [] => lift (Throw (TypeError "Router.use() requires a middleware function"))
  | callbacks =>
      lift (pathRegexp path false) ;;;
      ret (router ++ map (UseLayer path) callbacks)
  end.

(** [router.use(...fns)]: the mount path defaults to the root pattern,
    which compiles. *)
Definition use {E : Type} (router : Router) (fns : list Arg) : Eff E Router :=
  match flatten fns with
  | [] => lift (Throw (TypeError "Router.use() requires a middleware function"))
  | callbacks => ret (router ++ map (UseLayer "/") callbacks)
  end.

(** [router[method](path, ...handlers)]: the layer of the route is created
    on the path first, which throws when the path does not compile; the
    handlers then go on the route's own stack. *)
Definition route {E : Type} (pathRegexp : PathCompiler) (router : Router)
           (method : Verb) (path : string) (handlers : list Arg) : Eff E Router :=
  lift (pathRegexp path true) ;;;
  ret (router ++ [RouteLayer path method (flatten handlers)]).

(** ** Metadata *)

Record Validation : Type := mkValidation {
  schema : Value;
  v_options : Value
}.

Record ClassMetadata : Type := mkClassMetadata {
  baseUrl : string;
  c_middlewares : list IMiddleware;
  c_errorMiddlewares : list IMiddleware;
  c_validation : option Validation
}.

Record MethodMetadata : Type := mkMethodMetadata {
  methodName : string;
  method : Verb;
  path : string;
  middlewares : list IMiddleware;
  errorMiddlewares : list IMiddleware;
  validation : option Validation;
  paramsMetadata : option ParamsObject
}.

(** Modelled from the spec: the metadata store of
    [../decorators/meta-helpers], read through [getClassMetadata] and
    [getMethodMetadata].  A controller carries the metadata its decorators
    recorded, and its members by name. *)
Record Controller : Type := mkController {
  getClassMetadata : ClassMetadata;
  getMethodMetadata : list MethodMetadata;
  member : string -> ControllerFunction
}.

(** Modelled from the spec: [generateValidationMiddleware] of
    [../middlewares], the middleware built from a schema and its options. *)
Definition generateValidationMiddleware (schema opts : Value) : Handler :=
  ValidationMiddleware schema opts.

(** ** generateRouter *)

(** The body of [funcData.forEach]. *)
Definition register_method {E : Type} (pathRegexp : PathCompiler)
           (controller : Controller) (router : Router)
           (item : MethodMetadata) : Eff E Router :=
  let funcName := methodName item in
  let validMiddlewares :=
    match validation item with
    | Some v => [generateValidationMiddleware (schema v) (v_options v)]
    | None => []
    end in
  route pathRegexp router (method item) (path item)
        (map One validMiddlewares
         ++ [Many (map Fn (middlewares item))]
         ++ [One (Generated (generateRequestHandler (member controller funcName)
                                                    (paramsMetadata item)))]
         ++ [Many (map Fn (errorMiddlewares item))]).

Definition generateRouter {E : Type} (pathRegexp : PathCompiler)
           (controller : Controller) : Eff E Router :=
  let router := Router_new in
  let funcData := getMethodMetadata controller in
  let classData := getClassMetadata controller in
  router <- match c_validation classData with
            | Some v => use router [One (generateValidationMiddleware
                                           (schema v) (v_options v))]
            | None => ret router
            end ;;
  router <- (if negb (Nat.eqb (List.length (c_middlewares classData)) 0)
             then use router (map One (map Fn (c_middlewares classData)))
             else ret router) ;;
  router <- forEach funcData (register_method pathRegexp controller) router ;;
  router <- (if negb (Nat.eqb (List.length (c_errorMiddlewares classData)) 0)
             then use router (map One (map Fn (c_errorMiddlewares classData)))
             else ret router) ;;
  let finalRouter := Router_new in
  use_path pathRegexp finalRouter (baseUrl classData) [One (Mounted router)].

(** ** combineControllers *)

Record Options : Type := mkOptions {
  skipDefaultHttpErrorMiddleware : option bool;
  skipDefaultValidationErrorMiddleware : option bool
}.

(** Truthiness of an optional boolean property. *)
Definition truthy (b : option bool) : bool :=
  match b with
  | Some true => true
  | _ => false
  end.

Definition is_set {A : Type} (o : option A) : bool :=
  match o with
  | Some _ => true
  | None => false
  end.

(** [!options || (options && !options.flag)] *)
Definition not_skipped (opts : option Options) (flag : Options -> option bool) : bool :=
  negb (is_set opts)
  || (is_set opts && match opts with
                     | Some o => negb (truthy (flag o))
                     | None => false
                     end).

Definition console_log (line : string) : Eff string unit := emit line.

Definition combineControllers (pathRegexp : PathCompiler)
           (controllers : list Controller)
           (opts : option Options) : Eff string Router :=
  let router := Router_new in
  router <- forEach controllers
                    (fun router item =>
                       fragment <- generateRouter pathRegexp item ;;
                       use router [One (Mounted fragment)])
                    router ;;
  router <- (if not_skipped opts skipDefaultValidationErrorMiddleware
             then console_log "Setting default validation error middleware" ;;;
                  use router [One defaultValidationErrorHandler]
             else ret router) ;;
  router <- (if not_skipped opts skipDefaultHttpErrorMiddleware
             then console_log "Setting default http error middleware" ;;;
                  use router [One defaultHttpErrorMiddleware]
             else ret router) ;;
  ret router.

(** ** Vocabulary of the properties *)

(** On null and undefined the destructuring of the request throws. *)
Definition is_nullish (v : Value) : bool :=
  match v with
  | VUndefined | VNull => true
  | _ => false
  end.

(** The binding keys of a ParamsIndex, and the request facet each one
    stands for. *)
Inductive Binding : Type :=
| Body | RouteParams | Query | File | Files.

Definition binding_key (b : Binding) : string :=
  match b with
  | Body => "bodyIndex"
  | RouteParams => "paramsIndex"
  | Query => "queryIndex"
  | File => "fileIndex"
  | Files => "filesIndex"
  end.

Definition facet (b : Binding) (req : Value) : Value :=
  match b with
  | Body => get_prop req "body"
  | RouteParams => get_prop req "params"
  | Query => get_prop req "query"
  | File => get_prop req "file"
  | Files => get_prop req "files"
  end.

(** The bound keys of a ParamsIndex with their weights, in enumeration
    order. *)
Definition bindings (paramsIndex : ParamsObject) : list (string * Z) :=
  flat_map (fun kw => match snd kw with
                      | Some w => [(fst kw, w)]
                      | None => []
                      end) paramsIndex.

Definition facets_of (req : Value) : Facets :=
  mkFacets (get_prop req "body") (get_prop req "params") (get_prop req "query")
           (get_prop req "file") (get_prop req "files").

(** The entries in the order the generator inserts them. *)
Definition inserted (req res next : Value) (paramsIndex : ParamsObject) : list Param :=
  [mkParam 100 req None; mkParam 101 res None; mkParam 102 next None]
  ++ map (fun kw => mkParam (snd kw) (resolve (facets_of req) (fst kw)) (Some (fst kw)))
         (bindings paramsIndex).

(** What one key adds to the array: its entry when it is bound. *)
Definition entry_of (paramsIndex : ParamsObject) (f : Facets) (k : string) : list Param :=
  match pi_get paramsIndex k with
  | Some w => [mkParam w (resolve f k) (Some k)]
  | None => []
  end.

Definition has_weight (w : Z) (p : Param) : bool := weight p =? w.

Definition ascending (l : list Param) : Prop :=
  StronglySorted (fun a b => weight a <= weight b) l.

(** [a] stands before [b] in [l]. *)
Definition precedes {A : Type} (a b : A) (l : list A) : Prop :=
  exists l1 l2 l3, l = l1 ++ a :: l2 ++ b :: l3.

(** Projections of a handler's trace. *)
Definition invocations (t : list Event) : list (list Value) :=
  flat_map (fun ev => match ev with Invoke args => [args] | _ => [] end) t.

Definition next_calls (t : list Event) : list Value :=
  flat_map (fun ev => match ev with Next err => [err] | _ => [] end) t.

Definition response_writes (t : list Event) : list Event :=
  filter (fun ev => match ev with
                    | ResStatus _ | ResJson _ => true
                    | _ => false
                    end) t.

(** The routes a router serves: for each route layer, the mount paths above
    it, its verb, its path and its chain, in stack order. *)
Record Route : Type := mkRoute {
  r_prefix : list string;
  r_method : Verb;
  r_path : string;
  r_chain : list Handler
}.

Fixpoint handler_routes (prefix : list string) (h : Handler) : list Route :=
  match h with
  | Mounted stack =>
      (fix stack_routes (ls : list Layer) : list Route :=
         match ls with
         | [] => []
         | l :: rest => layer_routes prefix l ++ stack_routes rest
         end) stack
  | _ => []
  end
with layer_routes (prefix : list string) (l : Layer) : list Route :=
  match l with
  | UseLayer p h => handler_routes (prefix ++ [p]) h
  | RouteLayer p m chain => [mkRoute prefix m p chain]
  end.

Definition routes (router : Router) : list Route :=
  handler_routes [] (Mounted router).

(** The chain of one method entry. *)
Definition chain_of (controller : Controller) (item : MethodMetadata) : list Handler :=
  match validation item with
  | Some v => [ValidationMiddleware (schema v) (v_options v)]
  | None => []
  end
  ++ map Fn (middlewares item)
  ++ [Generated (generateRequestHandler (member controller (methodName item))
                                        (paramsMetadata item))]
  ++ map Fn (errorMiddlewares item).

Definition route_layer (controller : Controller) (item : MethodMetadata) : Layer :=
  RouteLayer (path item) (method item) (chain_of controller item).

(** The stack of the inner router of a controller: the class-level
    validation middleware if one is declared, the class-level middlewares,
    the routes, the class-level error middlewares. *)
Definition inner_stack (controller : Controller) : Router :=
  let classData := getClassMetadata controller in
  match c_validation classData with
  | Some v => [UseLayer "/" (ValidationMiddleware (schema v) (v_options v))]
  | None => []
  end
  ++ map (fun f => UseLayer "/" (Fn f)) (c_middlewares classData)
  ++ map (route_layer controller) (getMethodMetadata controller)
  ++ map (fun f => UseLayer "/" (Fn f)) (c_errorMiddlewares classData).

(** An option of [combineControllers] is set to true. *)
Definition set_to_true (opts : option Options) (flag : Options -> option bool) : bool :=
  match opts with
  | Some o => match flag o with
              | Some true => true
              | _ => false
              end
  | None => false
  end.

(** A path the compiler accepts, and one it rejects. *)
Definition accepted (pathRegexp : PathCompiler) (path : string) (end_ : bool) : Prop :=
  pathRegexp path end_ = Normal tt.

Definition rejected (pathRegexp : PathCompiler) (path : string) (end_ : bool) : Prop :=
  exists e, pathRegexp path end_ = Throw e.

(** The patterns of a controller: the path of each route, and the base
    path the inner router is mounted on. *)
Definition controller_accepted (pathRegexp : PathCompiler) (c : Controller) : Prop :=
  Forall (fun item => accepted pathRegexp (path item) true) (getMethodMetadata c)
  /\ accepted pathRegexp (baseUrl (getClassMetadata c)) false.

Definition controller_rejected (pathRegexp : PathCompiler) (c : Controller) : Prop :=
  Exists (fun item => rejected pathRegexp (path item) true) (getMethodMetadata c)
  \/ rejected pathRegexp (baseUrl (getClassMetadata c)) false.

Definition SyntaxError (message : string) : Value := VError "SyntaxError" message.

(** Express rejects the pattern ["/("], whose regular expression has an
    unterminated group.  This compiler rejects that pattern and accepts
    every other one. *)
Definition rejecting_open_group : PathCompiler :=
  fun path _ =>
    if String.eqb path "/("
    then Throw (SyntaxError "Invalid regular expression: Unterminated group")
    else Normal tt.

(** A controller with one route, on the pattern ["/("]. *)
Definition broken : Controller :=
  mkController (mkClassMetadata "/broken" [] [] None)
               [mkMethodMetadata "find" get "/(" [] [] None (Some [])]
               (fun _ _ => Normal VNull).

(** A controller without routes, on the base path ["/("]. *)
Definition unmountable : Controller :=
  mkController (mkClassMetadata "/(" [] [] None) []
               (fun _ _ => Normal VNull).

(** Two controllers for the examples: [users], with a class-level
    middleware and a validated [post] route, and [posts], bare. *)
Definition create_user : ControllerFunction :=
  fun args => Normal (VHttpResponse 201 (VObj [("id", VNum 5)])).

Definition users : Controller :=
  mkController
    (mkClassMetadata "/users" [7%nat] [] None)
    [mkMethodMetadata "create" post "/" [8%nat] [9%nat]
                      (Some (mkValidation (VStr "UserSchema") VUndefined))
                      (Some [("bodyIndex", Some 0)])]
    (fun _ => create_user).

Definition posts : Controller :=
  mkController (mkClassMetadata "/posts" [] [] None) []
               (fun _ _ => Normal VNull).

(** ** The sort *)

Lemma insert_param_perm (a : Param) (l : list Param) :
  Permutation (insert_param a l) (a :: l).
Proof.
  induction l as [|b rest IH]; simpl.
  - apply Permutation_refl.
  - destruct (0 <? compare_weight a b).
    + eapply Permutation_trans; [apply perm_skip, IH | apply perm_swap].
    + apply Permutation_refl.
Qed.

Lemma sort_params_perm (l : list Param) : Permutation (sort_params l) l.
Proof.
  induction l as [|a rest IH]; simpl.
  - constructor.
  - eapply Permutation_trans; [apply insert_param_perm | now apply perm_skip].
Qed.

Lemma insert_param_ascending (a : Param) (l : list Param) :
  ascending l -> ascending (insert_param a l).
Proof.
  unfold ascending. induction l as [|b rest IH]; simpl; intros Hs.
  - repeat constructor.
  - apply StronglySorted_inv in Hs as [Hrest Hb].
    destruct (0 <? compare_weight a b) eqn:Hc; unfold compare_weight in Hc.
    + apply Z.ltb_lt in Hc. constructor; [now apply IH|].
      apply Forall_forall. intros x Hx.
      apply (Permutation_in _ (insert_param_perm a rest)) in Hx.
      destruct Hx as [<-|Hx]; [lia|].
      rewrite Forall_forall in Hb. now apply Hb.
    + apply Z.ltb_ge in Hc. constructor; [now constructor|].
      constructor; [lia|].
      rewrite Forall_forall in Hb |- *. intros x Hx.
      specialize (Hb x Hx). lia.
Qed.

Lemma sort_params_ascending (l : list Param) : ascending (sort_params l).
Proof.
  induction l as [|a rest IH]; simpl.
  - constructor.
  - now apply insert_param_ascending.
Qed.

(** Stability: the entries of one weight keep their relative order. *)
Lemma insert_param_filter (w : Z) (a : Param) (l : list Param) :
  filter (has_weight w) (insert_param a l) = filter (has_weight w) (a :: l).
Proof.
  induction l as [|b rest IH].
  - reflexivity.
  - cbn [insert_param].
    destruct (0 <? compare_weight a b) eqn:Hc; [|reflexivity].
    apply Z.ltb_lt in Hc. unfold compare_weight in Hc.
    cbn [filter]. rewrite IH. cbn [filter].
    unfold has_weight.
    destruct (weight a =? w) eqn:Ha; destruct (weight b =? w) eqn:Hbw;
      try reflexivity.
    apply Z.eqb_eq in Ha, Hbw. lia.
Qed.

Lemma sort_params_stable (w : Z) (l : list Param) :
  filter (has_weight w) (sort_params l) = filter (has_weight w) l.
Proof.
  induction l as [|a rest IH].
  - reflexivity.
  - cbn [sort_params]. rewrite insert_param_filter.
    cbn [filter]. now rewrite IH.
Qed.

(** An ascending list is determined by its weight classes, so every stable
    sort returns what [sort_params] returns. *)
Lemma ascending_classes_unique (l1 l2 : list Param) :
  ascending l1 -> ascending l2 ->
  (forall w, filter (has_weight w) l1 = filter (has_weight w) l2) ->
  l1 = l2.
Proof.
  unfold ascending. revert l2.
  induction l1 as [|a t1 IH]; intros l2 H1 H2 Hcls.
  - destruct l2 as [|b t2]; [reflexivity|].
    specialize (Hcls (weight b)). cbn in Hcls. unfold has_weight in Hcls.
    rewrite Z.eqb_refl in Hcls. discriminate.
  - destruct l2 as [|b t2].
    + specialize (Hcls (weight a)). cbn in Hcls. unfold has_weight in Hcls.
      rewrite Z.eqb_refl in Hcls. discriminate.
    + apply StronglySorted_inv in H1 as [H1 Ha].
      apply StronglySorted_inv in H2 as [H2 Hb].
      rewrite Forall_forall in Ha, Hb.
      assert (Hin : forall x l, In x (filter (has_weight (weight x)) l) <-> In x l).
      { intros x l. rewrite filter_In. unfold has_weight.
        rewrite Z.eqb_refl. tauto. }
      assert (Hab : weight a = weight b).
      { assert (Hb_in : In b (a :: t1)).
        { apply Hin. rewrite Hcls. apply Hin. now left. }
        assert (Ha_in : In a (b :: t2)).
        { apply Hin. rewrite <- Hcls. apply Hin. now left. }
        destruct Hb_in as [->|Hb_in]; [reflexivity|].
        destruct Ha_in as [->|Ha_in]; [reflexivity|].
        specialize (Ha _ Hb_in). specialize (Hb _ Ha_in). lia. }
      assert (Heq : a = b).
      { specialize (Hcls (weight a)). cbn [filter] in Hcls.
        assert (Ea : has_weight (weight a) a = true) by apply Z.eqb_refl.
        assert (Eb : has_weight (weight a) b = true)
          by (unfold has_weight; rewrite Hab; apply Z.eqb_refl).
        rewrite Ea, Eb in Hcls. congruence. }
      subst b. f_equal. apply IH; trivial.
      intros w. specialize (Hcls w). cbn [filter] in Hcls.
      destruct (has_weight w a); congruence.
Qed.

Lemma stable_sort_unique (sort : list Param -> list Param) :
  (forall l, ascending (sort l)) ->
  (forall w l, filter (has_weight w) (sort l) = filter (has_weight w) l) ->
  forall l, sort l = sort_params l.
Proof.
  intros Hasc Hstable l.
  apply ascending_classes_unique; [apply Hasc | apply sort_params_ascending |].
  intros w. now rewrite Hstable, sort_params_stable.
Qed.

Lemma ascending_strict (l : list Param) :
  ascending l -> NoDup (map weight l) ->
  StronglySorted (fun a b => weight a < weight b) l.
Proof.
  unfold ascending. induction l as [|a t IH]; intros Hs Hnd.
  - constructor.
  - apply StronglySorted_inv in Hs as [Ht Ha].
    cbn in Hnd. apply NoDup_cons_iff in Hnd as [Hnotin Hnd].
    constructor; [now apply IH|].
    rewrite Forall_forall in Ha |- *. intros x Hx.
    specialize (Ha x Hx).
    assert (weight a <> weight x).
    { intros Heq. apply Hnotin. rewrite Heq. now apply in_map. }
    lia.
Qed.

(** ** Order of two entries in a list *)

Lemma filter_app_inv {A : Type} (P : A -> bool) (l m1 m2 : list A) :
  filter P l = m1 ++ m2 ->
  exists l1 l2, l = l1 ++ l2 /\ filter P l1 = m1 /\ filter P l2 = m2.
Proof.
  revert m1. induction l as [|x t IH]; intros m1 H.
  - cbn in H. symmetry in H. apply app_eq_nil in H as [-> ->].
    now exists [], [].
  - cbn [filter] in H. destruct (P x) eqn:Px.
    + destruct m1 as [|y m1'].
      * exists [], (x :: t). cbn [filter app]. rewrite Px. auto.
      * cbn in H. injection H as <- H.
        destruct (IH _ H) as (l1 & l2 & -> & <- & <-).
        exists (x :: l1), l2. cbn [filter app]. rewrite Px. auto.
    + destruct (IH _ H) as (l1 & l2 & -> & <- & <-).
      exists (x :: l1), l2. cbn [filter app]. rewrite Px. auto.
Qed.

Lemma filter_cons_inv {A : Type} (P : A -> bool) (l : list A) (a : A) (m : list A) :
  filter P l = a :: m ->
  exists l1 l2, l = l1 ++ a :: l2 /\ filter P l2 = m.
Proof.
  induction l as [|x t IH]; intros H; [discriminate|].
  cbn [filter] in H. destruct (P x) eqn:Px.
  - injection H as -> H. now exists [], t.
  - destruct (IH H) as (l1 & l2 & -> & Hm).
    now exists (x :: l1), l2.
Qed.

Lemma precedes_filter {A : Type} (P : A -> bool) (a b : A) (l : list A) :
  P a = true -> P b = true -> precedes a b l -> precedes a b (filter P l).
Proof.
  intros Pa Pb (l1 & l2 & l3 & ->).
  exists (filter P l1), (filter P l2), (filter P l3).
  rewrite filter_app. cbn [filter]. rewrite Pa, filter_app. cbn [filter].
  now rewrite Pb.
Qed.

Lemma precedes_of_filter {A : Type} (P : A -> bool) (a b : A) (l : list A) :
  precedes a b (filter P l) -> precedes a b l.
Proof.
  intros (m1 & m2 & m3 & H).
  apply filter_app_inv in H as (l1 & l2 & -> & _ & H).
  apply filter_cons_inv in H as (k1 & k2 & -> & H).
  apply filter_app_inv in H as (k3 & k4 & -> & _ & H).
  apply filter_cons_inv in H as (k5 & k6 & -> & _).
  exists (l1 ++ k1), (k3 ++ k5), k6.
  now rewrite <- !app_assoc.
Qed.

(** Ties keep their insertion order through the sort. *)
Lemma sort_params_keeps_ties (a b : Param) (l : list Param) :
  weight a = weight b -> precedes a b l -> precedes a b (sort_params l).
Proof.
  intros Hw Hp.
  apply (precedes_of_filter (has_weight (weight a))).
  rewrite sort_params_stable.
  apply precedes_filter; trivial; unfold has_weight.
  - apply Z.eqb_refl.
  - rewrite Hw. apply Z.eqb_refl.
Qed.

(** ** The collected entries *)

Lemma assoc_NoDup {A : Type} (k : string) (v : A) (l : list (string * A)) :
  NoDup (map fst l) -> In (k, v) l -> assoc k l = Some v.
Proof.
  induction l as [|[k' v'] t IH]; cbn; intros Hnd Hin; [contradiction|].
  apply NoDup_cons_iff in Hnd as [Hnotin Hnd].
  destruct Hin as [Heq|Hin].
  - injection Heq as -> ->. now rewrite String.eqb_refl.
  - destruct (String.eqb k k') eqn:Hk.
    + apply String.eqb_eq in Hk. subst k'. exfalso. apply Hnotin.
      change k with (fst (k, v)). now apply in_map.
    + now apply IH.
Qed.

Lemma fold_push_param (paramsIndex : ParamsObject) (f : Facets)
      (keys : list string) (acc : list Param) :
  fold_left (push_param paramsIndex f) keys acc
  = acc ++ flat_map (entry_of paramsIndex f) keys.
Proof.
  revert acc. induction keys as [|k t IH]; intros acc; cbn.
  - now rewrite app_nil_r.
  - rewrite IH. unfold push_param, entry_of.
    destruct (pi_get paramsIndex k); cbn; [now rewrite <- app_assoc|reflexivity].
Qed.

Lemma bound_keys_entries (paramsIndex : ParamsObject) (f : Facets) (keys : list string) :
  flat_map (entry_of paramsIndex f) (bound_keys paramsIndex keys)
  = flat_map (entry_of paramsIndex f) keys.
Proof.
  unfold bound_keys.
  induction keys as [|k t IH]; [reflexivity|].
  cbn [filter flat_map].
  destruct (pi_get paramsIndex k) eqn:Hk.
  - cbn [flat_map]. now rewrite IH.
  - rewrite IH. unfold entry_of at 2. now rewrite Hk.
Qed.

Lemma entries_bindings (paramsIndex : ParamsObject) (f : Facets)
      (l : list (string * option Z)) :
  (forall k w, In (k, w) l -> pi_get paramsIndex k = w) ->
  flat_map (entry_of paramsIndex f) (map fst l)
  = map (fun kw => mkParam (snd kw) (resolve f (fst kw)) (Some (fst kw)))
        (bindings l).
Proof.
  induction l as [|[k w] t IH]; intros Hget; cbn; [reflexivity|].
  rewrite IH by (intros k' w' Hin; apply Hget; now right).
  unfold entry_of at 1. rewrite (Hget k w) by now left.
  now destruct w.
Qed.

Lemma collect_params_inserted (req res next : Value) (paramsIndex : ParamsObject) :
  NoDup (Object_keys paramsIndex) ->
  collect_params req res next (facets_of req) paramsIndex (Object_keys paramsIndex)
  = inserted req res next paramsIndex.
Proof.
  intros Hnd. unfold collect_params, inserted.
  rewrite fold_push_param, bound_keys_entries. f_equal.
  apply entries_bindings. intros k w Hin.
  unfold pi_get. now rewrite (assoc_NoDup k w paramsIndex Hnd Hin).
Qed.

Lemma destructure_object (req : Value) :
  is_nullish req = false -> destructure req = Normal (facets_of req).
Proof. destruct req; cbn; intros H; (discriminate || reflexivity). Qed.

Lemma generateSortedParams_object (req res next : Value) (paramsIndex : ParamsObject) :
  is_nullish req = false ->
  NoDup (Object_keys paramsIndex) ->
  generateSortedParams req res next (Some paramsIndex)
  = Normal (map value (sort_params (inserted req res next paramsIndex))).
Proof.
  intros Hreq Hnd. unfold generateSortedParams.
  rewrite (destructure_object req Hreq).
  now rewrite collect_params_inserted.
Qed.

(** ** The generated handler, case by case *)

Section Handler.

Variables (f : ControllerFunction) (pi : option ParamsObject).
Variables (req res next : Value).

Lemma handler_extraction_throws (e : Value) :
  generateSortedParams req res next pi = Throw e ->
  generateRequestHandler f pi req res next
  = ([Next e], Normal VUndefined).
Proof.
  intros H. unfold generateRequestHandler. now rewrite H.
Qed.

Lemma handler_method_throws (e : Value) (args : list Value) :
  generateSortedParams req res next pi = Normal args ->
  f args = Throw e ->
  generateRequestHandler f pi req res next
  = ([Invoke args; Next e], Normal VUndefined).
Proof.
  intros H Hf. unfold generateRequestHandler. rewrite H.
  cbn. now rewrite Hf.
Qed.

Lemma handler_HttpResponse (args : list Value) (status : Z) (json : Value) :
  generateSortedParams req res next pi = Normal args ->
  f args = Normal (VHttpResponse status json) ->
  valid_status status = true ->
  generateRequestHandler f pi req res next
  = ([Invoke args; ResStatus status; ResJson json], Normal res).
Proof.
  intros H Hf Hs. unfold generateRequestHandler. rewrite H.
  cbn. rewrite Hf. cbn. unfold res_json. cbn. now rewrite Hs.
Qed.

Lemma handler_invalid_status (args : list Value) (status : Z) (json : Value) :
  generateSortedParams req res next pi = Normal args ->
  f args = Normal (VHttpResponse status json) ->
  valid_status status = false ->
  generateRequestHandler f pi req res next
  = ([Invoke args; ResStatus status; ResJson json;
      Next (RangeError "Invalid status code")],
     Normal VUndefined).
Proof.
  intros H Hf Hs. unfold generateRequestHandler. rewrite H.
  cbn. rewrite Hf. cbn. unfold res_json. cbn. now rewrite Hs.
Qed.

Lemma handler_bare_value (v : Value) (args : list Value) :
  generateSortedParams req res next pi = Normal args ->
  f args = Normal v ->
  instanceof_HttpResponse v = false ->
  generateRequestHandler f pi req res next
  = ([Invoke args; ResStatus 200; ResJson v], Normal res).
Proof.
  intros H Hf Hv. unfold generateRequestHandler. rewrite H.
  cbn. rewrite Hf. destruct v; try reflexivity. discriminate.
Qed.

(** The five cases are all there is. *)
Lemma handler_cases :
  (exists e, generateSortedParams req res next pi = Throw e)
  \/ exists args,
      generateSortedParams req res next pi = Normal args
      /\ ((exists e, f args = Throw e)
          \/ (exists status json,
                 f args = Normal (VHttpResponse status json)
                 /\ valid_status status = true)
          \/ (exists status json,
                 f args = Normal (VHttpResponse status json)
                 /\ valid_status status = false)
          \/ (exists v, f args = Normal v /\ instanceof_HttpResponse v = false)).
Proof.
  destruct (generateSortedParams req res next pi) as [args|e] eqn:H;
    [right; exists args; split; trivial | left; now exists e].
  destruct (f args) as [v|e] eqn:Hf; [|left; now exists e].
  right. destruct (instanceof_HttpResponse v) eqn:Hv.
  - destruct v; try discriminate.
    destruct (valid_status status) eqn:Hs; [left|right; left]; now eauto.
  - right. right. now exists v.
Qed.

Lemma handler_invocations (args : list Value) :
  generateSortedParams req res next pi = Normal args ->
  invocations (fst (generateRequestHandler f pi req res next)) = [args].
Proof.
  intros H.
  destruct handler_cases as [(e & He) | (args' & Hargs & Hcase)];
    [congruence|].
  assert (args' = args) by congruence. subst args'.
  destruct Hcase as [(e & Hf) | [(status & json & Hf & Hs)
                                | [(status & json & Hf & Hs) | (v & Hf & Hv)]]].
  - now rewrite (handler_method_throws e args H Hf).
  - now rewrite (handler_HttpResponse args status json H Hf Hs).
  - now rewrite (handler_invalid_status args status json H Hf Hs).
  - now rewrite (handler_bare_value v args H Hf Hv).
Qed.

(** No exception leaves the handler. *)
Lemma handler_completes_normally :
  exists v, snd (generateRequestHandler f pi req res next) = Normal v.
Proof.
  destruct handler_cases as [(e & He) | (args & H & Hcase)].
  - rewrite (handler_extraction_throws e He). now eexists.
  - destruct Hcase as [(e & Hf) | [(status & json & Hf & Hs)
                                  | [(status & json & Hf & Hs) | (v & Hf & Hv)]]].
    + rewrite (handler_method_throws e args H Hf). now eexists.
    + rewrite (handler_HttpResponse args status json H Hf Hs). now eexists.
    + rewrite (handler_invalid_status args status json H Hf Hs). now eexists.
    + rewrite (handler_bare_value v args H Hf Hv). now eexists.
Qed.

End Handler.

Lemma StronglySorted_map {A B : Type} (R : B -> B -> Prop) (g : A -> B) (l : list A) :
  StronglySorted (fun a b => R (g a) (g b)) l -> StronglySorted R (map g l).
Proof.
  induction 1 as [|a t Ht IH Ha]; cbn; constructor; trivial.
  rewrite Forall_forall in Ha |- *. intros y Hy.
  apply in_map_iff in Hy as (x & <- & Hx). now apply Ha.
Qed.

Lemma resolve_binding (b : Binding) (req : Value) :
  resolve (facets_of req) (binding_key b) = facet b req.
Proof. destruct b; reflexivity. Qed.

Lemma inserted_weights (req res next : Value) (paramsIndex : ParamsObject) :
  map weight (inserted req res next paramsIndex)
  = 100 :: 101 :: 102 :: map snd (bindings paramsIndex).
Proof.
  unfold inserted. cbn. do 3 f_equal. rewrite map_map. reflexivity.
Qed.

(** ** Argument ordering *)

(** C1: for a request object and a ParamsIndex whose bound keys are binding
    keys, with weights pairwise distinct and distinct from 100, 101 and 102,
    the generated handler invokes the controller method once, with 3 + k
    arguments: the values of the entries (100, request), (101, response),
    (102, next) and (weight, facet of the request) of each bound key, in
    strictly ascending order of weight. *)
Theorem C1_arguments_ascending_by_weight :
  forall (f : ControllerFunction) (req res next : Value)
         (paramsIndex : ParamsObject) (bound : list (Binding * Z)),
    is_nullish req = false ->
    NoDup (Object_keys paramsIndex) ->
    bindings paramsIndex = map (fun bw => (binding_key (fst bw), snd bw)) bound ->
    NoDup (100 :: 101 :: 102 :: map snd bound) ->
    exists entries : list (Z * Value),
      invocations (fst (generateRequestHandler f (Some paramsIndex) req res next))
      = [map snd entries]
      /\ List.length entries = (3 + List.length bound)%nat
      /\ StronglySorted (fun a b => fst a < fst b) entries
      /\ Permutation entries
           ((100, req) :: (101, res) :: (102, next)
            :: map (fun bw => (snd bw, facet (fst bw) req)) bound).
Proof.
  intros f req res next paramsIndex bound Hreq Hkeys Hbound Hdistinct.
  pose proof (generateSortedParams_object req res next paramsIndex Hreq Hkeys) as Hargs.
  set (sorted := sort_params (inserted req res next paramsIndex)) in *.
  assert (Hperm : Permutation sorted (inserted req res next paramsIndex))
    by apply sort_params_perm.
  exists (map (fun p => (weight p, value p)) sorted).
  split; [|split; [|split]].
  - rewrite (handler_invocations f _ _ _ _ _ Hargs).
    rewrite map_map. reflexivity.
  - rewrite length_map, (Permutation_length Hperm).
    unfold inserted. rewrite length_app, length_map, Hbound, length_map.
    reflexivity.
  - apply (StronglySorted_map (fun a b => fst a < fst b)). cbn [fst].
    apply ascending_strict; [apply sort_params_ascending|].
    apply (Permutation_NoDup
             (l := map weight (inserted req res next paramsIndex))).
    + apply Permutation_map. now apply Permutation_sym.
    + rewrite inserted_weights, Hbound, map_map. exact Hdistinct.
  - eapply Permutation_trans; [apply Permutation_map, Hperm|].
    unfold inserted. cbn [map app]. rewrite Hbound, !map_map. cbn [fst snd weight value].
    do 3 apply perm_skip.
    erewrite map_ext; [apply Permutation_refl|].
    intros [b w]. cbn. now rewrite resolve_binding.
Qed.

(** The handler of a method declared as [m(@body b, @params p, req)] is
    called with the body, the route parameters, the request, the response
    and next. *)
Lemma C1_arguments_ascending_by_weight_witness :
  exists entries : list (Z * Value),
    invocations
      (fst (generateRequestHandler (fun _ => Normal VNull)
              (Some [("bodyIndex", Some 0); ("queryIndex", None);
                     ("paramsIndex", Some 1)])
              (VObj [("body", VStr "b"); ("params", VStr "p")])
              (VHost 1 []) (VFun 2)))
    = [map snd entries]
    /\ List.length entries = 5%nat
    /\ StronglySorted (fun a b => fst a < fst b) entries
    /\ Permutation entries
         [(100, VObj [("body", VStr "b"); ("params", VStr "p")]);
          (101, VHost 1 []); (102, VFun 2);
          (0, VStr "b"); (1, VStr "p")].
Proof.
  apply (C1_arguments_ascending_by_weight
           (fun _ => Normal VNull)
           (VObj [("body", VStr "b"); ("params", VStr "p")])
           (VHost 1 []) (VFun 2)
           [("bodyIndex", Some 0); ("queryIndex", None); ("paramsIndex", Some 1)]
           [(Body, 0); (RouteParams, 1)]).
  - reflexivity.
  - cbn. repeat constructor; cbn; intuition discriminate.
  - reflexivity.
  - cbn. repeat constructor; cbn; intuition discriminate.
Defined.

(** C10: the arguments are the values of the inserted entries (request,
    response, next, then the bound keys in enumeration order) sorted
    ascending by weight, and two entries of equal weight, reserved or bound,
    stand in the sorted list in the order they were inserted; the argument
    list is a function of the inputs. *)
Theorem C10_ties_keep_insertion_order :
  forall (req res next : Value) (paramsIndex : ParamsObject),
    is_nullish req = false ->
    NoDup (Object_keys paramsIndex) ->
    exists sorted : list Param,
      generateSortedParams req res next (Some paramsIndex)
      = Normal (map value sorted)
      /\ Permutation sorted (inserted req res next paramsIndex)
      /\ ascending sorted
      /\ (forall a b : Param,
             weight a = weight b ->
             precedes a b (inserted req res next paramsIndex) ->
             precedes a b sorted)
      /\ (forall args : list Value,
             generateSortedParams req res next (Some paramsIndex) = Normal args ->
             args = map value sorted).
Proof.
  intros req res next paramsIndex Hreq Hkeys.
  exists (sort_params (inserted req res next paramsIndex)).
  pose proof (generateSortedParams_object req res next paramsIndex Hreq Hkeys) as Hargs.
  repeat split.
  - exact Hargs.
  - apply sort_params_perm.
  - apply sort_params_ascending.
  - intros a b. apply sort_params_keeps_ties.
  - intros args H. rewrite Hargs in H. now injection H as <-.
Qed.

(** A body bound at weight 100 and a query bound at weight 100 collide with
    the request. *)
Lemma C10_ties_keep_insertion_order_witness :
  exists sorted : list Param,
    generateSortedParams
      (VObj [("body", VStr "b"); ("query", VStr "q")]) (VHost 1 []) (VFun 2)
      (Some [("bodyIndex", Some 100); ("queryIndex", Some 100)])
    = Normal (map value sorted)
    /\ Permutation sorted
         (inserted (VObj [("body", VStr "b"); ("query", VStr "q")])
                   (VHost 1 []) (VFun 2)
                   [("bodyIndex", Some 100); ("queryIndex", Some 100)])
    /\ ascending sorted
    /\ (forall a b : Param,
           weight a = weight b ->
           precedes a b
             (inserted (VObj [("body", VStr "b"); ("query", VStr "q")])
                       (VHost 1 []) (VFun 2)
                       [("bodyIndex", Some 100); ("queryIndex", Some 100)]) ->
           precedes a b sorted)
    /\ (forall args : list Value,
           generateSortedParams
             (VObj [("body", VStr "b"); ("query", VStr "q")])
             (VHost 1 []) (VFun 2)
             (Some [("bodyIndex", Some 100); ("queryIndex", Some 100)])
           = Normal args ->
           args = map value sorted).
Proof.
  apply (C10_ties_keep_insertion_order
           (VObj [("body", VStr "b"); ("query", VStr "q")])
           (VHost 1 []) (VFun 2)
           [("bodyIndex", Some 100); ("queryIndex", Some 100)]).
  - reflexivity.
  - cbn. repeat constructor; cbn; intuition discriminate.
Defined.

(** On that input the arguments are: request, body, query, response, next. *)
Example ties_example :
  generateSortedParams (VObj [("body", VStr "b"); ("query", VStr "q")])
                       (VHost 1 []) (VFun 2)
                       (Some [("bodyIndex", Some 100); ("queryIndex", Some 100)])
  = Normal [VObj [("body", VStr "b"); ("query", VStr "q")];
            VStr "b"; VStr "q"; VHost 1 []; VFun 2].
Proof. reflexivity. Qed.

(** ** Result translation *)






Example created_example :
  generateRequestHandler
    (fun _ => Normal (VHttpResponse 201 (VObj [("id", VNum 5)])))
    (Some []) (VObj []) (VHost 1 []) (VFun 2)
  = ([Invoke [VObj []; VHost 1 []; VFun 2];
      ResStatus 201; ResJson (VObj [("id", VNum 5)])],
     Normal (VHost 1 [])).
Proof. reflexivity. Qed.

Example plain_value_example :
  generateRequestHandler
    (fun _ => Normal (VObj [("ok", VBool true)]))
    (Some []) (VObj []) (VHost 1 []) (VFun 2)
  = ([Invoke [VObj []; VHost 1 []; VFun 2];
      ResStatus 200; ResJson (VObj [("ok", VBool true)])],
     Normal (VHost 1 [])).
Proof. reflexivity. Qed.

(** C3: when the argument extraction or the controller method throws, the
    handler calls next once, with the thrown value, writes nothing to the
    response, and completes normally. *)
Theorem C3_synchronous_throw_forwarded :
  forall (f : ControllerFunction) (pi : option ParamsObject)
         (req res next e : Value),
    (generateSortedParams req res next pi = Throw e
     \/ exists args, generateSortedParams req res next pi = Normal args
                     /\ f args = Throw e) ->
    next_calls (fst (generateRequestHandler f pi req res next)) = [e]
    /\ response_writes (fst (generateRequestHandler f pi req res next)) = []
    /\ snd (generateRequestHandler f pi req res next) = Normal VUndefined.
Proof.
  intros f pi req res next e [Hx | (args & Hargs & Hf)].
  - rewrite (handler_extraction_throws f _ _ _ _ _ Hx). now repeat split.
  - rewrite (handler_method_throws f _ _ _ _ _ _ Hargs Hf). now repeat split.
Qed.

(** A method that throws [Error("boom")]. *)
Lemma C3_synchronous_throw_forwarded_witness :
  next_calls
    (fst (generateRequestHandler (fun _ => Throw (VError "Error" "boom"))
                                 (Some []) (VObj []) (VHost 1 []) (VFun 2)))
  = [VError "Error" "boom"]
  /\ response_writes
       (fst (generateRequestHandler (fun _ => Throw (VError "Error" "boom"))
                                    (Some []) (VObj []) (VHost 1 []) (VFun 2)))
     = []
  /\ snd (generateRequestHandler (fun _ => Throw (VError "Error" "boom"))
                                 (Some []) (VObj []) (VHost 1 []) (VFun 2))
     = Normal VUndefined.
Proof.
  apply (C3_synchronous_throw_forwarded
           (fun _ => Throw (VError "Error" "boom")) (Some [])
           (VObj []) (VHost 1 []) (VFun 2) (VError "Error" "boom")).
  right. exists [VObj []; VHost 1 []; VFun 2]. split; reflexivity.
Defined.

(** The extraction itself throws when the method has no ParamsIndex. *)
Example extraction_throws_example :
  generateRequestHandler (fun _ => Normal VNull) None
                         (VObj []) (VHost 1 []) (VFun 2)
  = ([Next (TypeError "Cannot convert undefined or null to object")],
     Normal VUndefined).
Proof. reflexivity. Qed.

(** C7: when the controller method returns a promise, whatever its
    settlement, the handler writes status 200 and hands the promise itself
    to [res.json]; it never calls next, so a rejection does not reach the
    error pipeline through this handler. *)
Theorem C7_promise_not_awaited :
  forall (f : ControllerFunction) (pi : option ParamsObject)
         (req res next : Value) (args : list Value)
         (settlement : Settlement Value),
    generateSortedParams req res next pi = Normal args ->
    f args = Normal (VPromise settlement) ->
    generateRequestHandler f pi req res next
    = ([Invoke args; ResStatus 200; ResJson (VPromise settlement)], Normal res)
    /\ next_calls (fst (generateRequestHandler f pi req res next)) = [].
Proof.
  intros f pi req res next args settlement Hargs Hf.
  rewrite (handler_bare_value f _ _ _ _ _ _ Hargs Hf eq_refl).
  now split.
Qed.

(** A method whose promise rejects with [Error("late")]. *)
Lemma C7_promise_not_awaited_witness :
  generateRequestHandler
    (fun _ => Normal (VPromise (Rejected (VError "Error" "late"))))
    (Some []) (VObj []) (VHost 1 []) (VFun 2)
  = ([Invoke [VObj []; VHost 1 []; VFun 2]; ResStatus 200;
      ResJson (VPromise (Rejected (VError "Error" "late")))],
     Normal (VHost 1 []))
  /\ next_calls
       (fst (generateRequestHandler
               (fun _ => Normal (VPromise (Rejected (VError "Error" "late"))))
               (Some []) (VObj []) (VHost 1 []) (VFun 2)))
     = [].
Proof.
  apply (C7_promise_not_awaited
           (fun _ => Normal (VPromise (Rejected (VError "Error" "late"))))
           (Some []) (VObj []) (VHost 1 []) (VFun 2)
           [VObj []; VHost 1 []; VFun 2]
           (Rejected (VError "Error" "late")));
    reflexivity.
Defined.



(** ** Router assembly *)

Lemma bind_ret {E A B : Type} (a : A) (k : A -> Eff E B) :
  bind (ret a) k = k a.
Proof. unfold bind, ret. now destruct (k a). Qed.

Lemma bind_ext {E A B : Type} (m : Eff E A) (k k' : A -> Eff E B) :
  (forall a, k a = k' a) -> bind m k = bind m k'.
Proof.
  intros H. unfold bind. destruct m as [t [a|e]]; [now rewrite H|reflexivity].
Qed.

Lemma flatten_map_One (hs : list Handler) : flatten (map One hs) = hs.
Proof.
  unfold flatten. induction hs as [|h t IH]; cbn; [reflexivity|now rewrite IH].
Qed.

Lemma flatten_app (xs ys : list Arg) : flatten (xs ++ ys) = flatten xs ++ flatten ys.
Proof. unfold flatten. apply flat_map_app. Qed.

Lemma use_functions {E : Type} (router : Router) (fs : list IMiddleware) :
  (if negb (Nat.eqb (List.length fs) 0)
   then use router (map One (map Fn fs))
   else ret router)
  = (ret (router ++ map (fun f => UseLayer "/" (Fn f)) fs) : Eff E Router).
Proof.
  destruct fs as [|f t]; cbn.
  - now rewrite app_nil_r.
  - unfold use. rewrite flatten_map_One. cbn.
    now rewrite map_map.
Qed.

Lemma path_accepted_or_rejected (pathRegexp : PathCompiler) (path : string) (end_ : bool) :
  accepted pathRegexp path end_ \/ rejected pathRegexp path end_.
Proof.
  unfold accepted, rejected.
  destruct (pathRegexp path end_) as [[]|e]; [now left|right; now exists e].
Qed.

Section Registration.

Variable E : Type.
Variable pathRegexp : PathCompiler.
Variable controller : Controller.

Lemma register_method_layer (router : Router) (item : MethodMetadata) :
  accepted pathRegexp (path item) true ->
  register_method pathRegexp controller router item
  = (ret (router ++ [route_layer controller item]) : Eff E Router).
Proof.
  unfold accepted. intros Hp.
  unfold register_method, route, route_layer, chain_of,
    generateValidationMiddleware.
  rewrite Hp, !flatten_app, flatten_map_One. cbn.
  now rewrite !app_nil_r.
Qed.

Lemma register_method_rejected (router : Router) (item : MethodMetadata) (e : Value) :
  pathRegexp (path item) true = Throw e ->
  register_method pathRegexp controller router item
  = (([], Throw e) : Eff E Router).
Proof.
  intros Hp. unfold register_method, route. now rewrite Hp.
Qed.

Lemma forEach_register (items : list MethodMetadata) (router : Router) :
  Forall (fun item => accepted pathRegexp (path item) true) items ->
  forEach items (register_method pathRegexp controller) router
  = (ret (router ++ map (route_layer controller) items) : Eff E Router).
Proof.
  intros Hall. revert router.
  induction Hall as [|item rest Hitem Hrest IH]; intros router; cbn [forEach map].
  - now rewrite app_nil_r.
  - rewrite (register_method_layer router item Hitem), bind_ret, IH.
    now rewrite <- app_assoc.
Qed.

Lemma forEach_register_rejected (items : list MethodMetadata) (router : Router) :
  Exists (fun item => rejected pathRegexp (path item) true) items ->
  exists e,
    forEach items (register_method pathRegexp controller) router
    = (([], Throw e) : Eff E Router).
Proof.
  intros Hex. revert router.
  induction Hex as [item rest [e He] | item rest Hex IH]; intros router;
    cbn [forEach].
  - exists e. now rewrite (register_method_rejected router item e He).
  - destruct (path_accepted_or_rejected pathRegexp (path item) true)
      as [Hok | [e He]].
    + rewrite (register_method_layer router item Hok), bind_ret. apply IH.
    + exists e. now rewrite (register_method_rejected router item e He).
Qed.

Lemma methods_accepted_or_rejected (items : list MethodMetadata) :
  Forall (fun item => accepted pathRegexp (path item) true) items
  \/ Exists (fun item => rejected pathRegexp (path item) true) items.
Proof.
  induction items as [|item rest [IH|IH]].
  - left. constructor.
  - destruct (path_accepted_or_rejected pathRegexp (path item) true) as [H|H].
    + left. now constructor.
    + right. now left.
  - right. now right.
Qed.

(** [generateRouter] up to the registration of the routes and beyond it. *)
Lemma generateRouter_steps :
  generateRouter pathRegexp controller
  = (router <- forEach (getMethodMetadata controller)
                       (register_method pathRegexp controller)
                       (match c_validation (getClassMetadata controller) with
                        | Some v => [UseLayer "/" (ValidationMiddleware
                                                     (schema v) (v_options v))]
                        | None => []
                        end
                        ++ map (fun f => UseLayer "/" (Fn f))
                               (c_middlewares (getClassMetadata controller))) ;;
     use_path pathRegexp []
              (baseUrl (getClassMetadata controller))
              [One (Mounted
                      (router
                       ++ map (fun f => UseLayer "/" (Fn f))
                              (c_errorMiddlewares (getClassMetadata controller))))]
     : Eff E Router).
Proof.
  unfold generateRouter, Router_new, generateValidationMiddleware.
  cbv zeta.
  destruct (c_validation (getClassMetadata controller)) as [v|].
  - change (use [] [One (ValidationMiddleware (schema v) (v_options v))])
      with (ret [UseLayer "/" (ValidationMiddleware (schema v) (v_options v))]
            : Eff E Router).
    rewrite bind_ret, use_functions, bind_ret.
    apply bind_ext. intros router. now rewrite use_functions, bind_ret.
  - rewrite bind_ret, use_functions, bind_ret.
    apply bind_ext. intros router. now rewrite use_functions, bind_ret.
Qed.

(** With patterns that compile, [generateRouter] returns an outer router
    holding the inner one on the base path. *)
Lemma generateRouter_stack :
  controller_accepted pathRegexp controller ->
  generateRouter pathRegexp controller
  = (ret [UseLayer (baseUrl (getClassMetadata controller))
                   (Mounted (inner_stack controller))] : Eff E Router).
Proof.
  intros [Hmethods Hbase]. unfold accepted in Hbase.
  rewrite generateRouter_steps, (forEach_register _ _ Hmethods), bind_ret.
  unfold use_path, inner_stack. cbn [flatten flat_map app map].
  rewrite Hbase. cbn. now rewrite <- !app_assoc.
Qed.

Lemma generateRouter_rejected :
  controller_rejected pathRegexp controller ->
  exists e, generateRouter pathRegexp controller = (([], Throw e) : Eff E Router).
Proof.
  intros Hrej. rewrite generateRouter_steps.
  destruct (methods_accepted_or_rejected (getMethodMetadata controller))
    as [Hmethods | Hmethods].
  - destruct Hrej as [Hrej | [e He]].
    + destruct (forEach_register_rejected _
                  (match c_validation (getClassMetadata controller) with
                   | Some v => [UseLayer "/" (ValidationMiddleware
                                                (schema v) (v_options v))]
                   | None => []
                   end
                   ++ map (fun f => UseLayer "/" (Fn f))
                          (c_middlewares (getClassMetadata controller))) Hrej)
        as [e He].
      exists e. now rewrite He.
    + exists e. rewrite (forEach_register _ _ Hmethods), bind_ret.
      unfold use_path. cbn [flatten flat_map app]. now rewrite He.
  - destruct (forEach_register_rejected _
                (match c_validation (getClassMetadata controller) with
                 | Some v => [UseLayer "/" (ValidationMiddleware
                                              (schema v) (v_options v))]
                 | None => []
                 end
                 ++ map (fun f => UseLayer "/" (Fn f))
                        (c_middlewares (getClassMetadata controller))) Hmethods)
      as [e He].
    exists e. now rewrite He.
Qed.

Lemma controller_accepted_or_rejected :
  controller_accepted pathRegexp controller
  \/ controller_rejected pathRegexp controller.
Proof.
  unfold controller_accepted, controller_rejected.
  destruct (methods_accepted_or_rejected (getMethodMetadata controller));
    destruct (path_accepted_or_rejected
                pathRegexp (baseUrl (getClassMetadata controller)) false);
    tauto.
Qed.

End Registration.

Lemma stack_routes_flat_map (prefix : list string) (stack : list Layer) :
  handler_routes prefix (Mounted stack) = flat_map (layer_routes prefix) stack.
Proof.
  cbn. induction stack as [|l rest IH]; cbn; [reflexivity|now rewrite IH].
Qed.

Lemma use_functions_no_routes (prefix : list string) (fs : list IMiddleware) :
  flat_map (layer_routes prefix) (map (fun f => UseLayer "/" (Fn f)) fs) = [].
Proof. induction fs as [|f t IH]; cbn; [reflexivity|exact IH]. Qed.

Lemma route_layers_routes (prefix : list string) (controller : Controller)
      (items : list MethodMetadata) :
  flat_map (layer_routes prefix) (map (route_layer controller) items)
  = map (fun item => mkRoute prefix (method item) (path item)
                             (chain_of controller item)) items.
Proof. induction items as [|i t IH]; cbn; [reflexivity|now rewrite IH]. Qed.

Lemma generated_routes (controller : Controller) :
  routes [UseLayer (baseUrl (getClassMetadata controller))
                   (Mounted (inner_stack controller))]
  = map (fun item => mkRoute [baseUrl (getClassMetadata controller)]
                             (method item) (path item)
                             (chain_of controller item))
        (getMethodMetadata controller).
Proof.
  unfold routes. rewrite stack_routes_flat_map. cbn [flat_map layer_routes app].
  rewrite app_nil_r, stack_routes_flat_map. unfold inner_stack.
  rewrite !flat_map_app, !use_functions_no_routes, route_layers_routes.
  rewrite app_nil_r.
  destruct (c_validation (getClassMetadata controller)); reflexivity.
Qed.

Section Combination.

Variable pathRegexp : PathCompiler.

Lemma forEach_mount (controllers : list Controller) (router : Router) :
  Forall (controller_accepted pathRegexp) controllers ->
  forEach controllers
          (fun router item =>
             fragment <- generateRouter pathRegexp item ;;
             use router [One (Mounted fragment)])
          router
  = (ret (router
          ++ map (fun c => UseLayer "/"
                             (Mounted [UseLayer (baseUrl (getClassMetadata c))
                                                (Mounted (inner_stack c))]))
                 controllers) : Eff string Router).
Proof.
  intros Hall. revert router.
  induction Hall as [|c rest Hc Hrest IH]; intros router; cbn [forEach map].
  - now rewrite app_nil_r.
  - rewrite (generateRouter_stack string pathRegexp c Hc), bind_ret.
    unfold use. cbn [flatten flat_map app map].
    rewrite bind_ret, IH. now rewrite <- app_assoc.
Qed.

Lemma forEach_mount_rejected (controllers : list Controller) (router : Router) :
  Exists (controller_rejected pathRegexp) controllers ->
  exists e,
    forEach controllers
            (fun router item =>
               fragment <- generateRouter pathRegexp item ;;
               use router [One (Mounted fragment)])
            router
    = (([], Throw e) : Eff string Router).
Proof.
  intros Hex. revert router.
  induction Hex as [c rest Hc | c rest Hex IH]; intros router; cbn [forEach].
  - destruct (generateRouter_rejected string pathRegexp c Hc) as [e He].
    exists e. now rewrite He.
  - destruct (controller_accepted_or_rejected pathRegexp c) as [Hok | Hc].
    + rewrite (generateRouter_stack string pathRegexp c Hok), bind_ret.
      unfold use. cbn [flatten flat_map app map].
      rewrite bind_ret. apply IH.
    + destruct (generateRouter_rejected string pathRegexp c Hc) as [e He].
      exists e. now rewrite He.
Qed.

Lemma controllers_accepted_or_rejected (controllers : list Controller) :
  Forall (controller_accepted pathRegexp) controllers
  \/ Exists (controller_rejected pathRegexp) controllers.
Proof.
  induction controllers as [|c rest [IH|IH]].
  - left. constructor.
  - destruct (controller_accepted_or_rejected pathRegexp c) as [H|H].
    + left. now constructor.
    + right. now left.
  - right. now right.
Qed.

Lemma not_skipped_set_to_true (opts : option Options) (flag : Options -> option bool) :
  not_skipped opts flag = negb (set_to_true opts flag).
Proof.
  unfold not_skipped, set_to_true, truthy.
  destruct opts as [o|]; cbn; [|reflexivity].
  destruct (flag o) as [[|]|]; reflexivity.
Qed.

Lemma combineControllers_stack (controllers : list Controller) (opts : option Options) :
  Forall (controller_accepted pathRegexp) controllers ->
  combineControllers pathRegexp controllers opts
  = ((if set_to_true opts skipDefaultValidationErrorMiddleware then []
      else ["Setting default validation error middleware"])
     ++ (if set_to_true opts skipDefaultHttpErrorMiddleware then []
         else ["Setting default http error middleware"]),
     Normal
       (map (fun c => UseLayer "/"
                        (Mounted [UseLayer (baseUrl (getClassMetadata c))
                                           (Mounted (inner_stack c))]))
            controllers
        ++ (if set_to_true opts skipDefaultValidationErrorMiddleware then []
            else [UseLayer "/" defaultValidationErrorHandler])
        ++ (if set_to_true opts skipDefaultHttpErrorMiddleware then []
            else [UseLayer "/" defaultHttpErrorMiddleware]))).
Proof.
  intros Hall. unfold combineControllers, Router_new.
  rewrite (forEach_mount _ _ Hall), !not_skipped_set_to_true. cbn [bind ret app].
  destruct (set_to_true opts skipDefaultValidationErrorMiddleware);
    destruct (set_to_true opts skipDefaultHttpErrorMiddleware);
    cbn; rewrite ?app_nil_r, <- ?app_assoc; reflexivity.
Qed.

Lemma combineControllers_rejected (controllers : list Controller) (opts : option Options) :
  Exists (controller_rejected pathRegexp) controllers ->
  exists e, combineControllers pathRegexp controllers opts = ([], Throw e).
Proof.
  intros Hex. unfold combineControllers, Router_new.
  destruct (forEach_mount_rejected controllers [] Hex) as [e He].
  exists e. now rewrite He.
Qed.

End Combination.

Lemma Forall2_map_right {A B : Type} (R : A -> B -> Prop) (g : A -> B) (l : list A) :
  (forall x, In x l -> R x (g x)) -> Forall2 R l (map g l).
Proof.
  induction l as [|x t IH]; intros H; cbn; constructor.
  - apply H. now left.
  - apply IH. intros y Hy. apply H. now right.
Qed.

Lemma users_accepted : controller_accepted rejecting_open_group users.
Proof. split; [repeat constructor|reflexivity]. Qed.

Lemma posts_accepted : controller_accepted rejecting_open_group posts.
Proof. split; [constructor|reflexivity]. Qed.

(** C4, amended: for controllers whose base paths and route paths Express
    compiles, [combineControllers] returns a router whose stack is the
    fragment generated for each controller, mounted in input order, then
    the default validation-error handler unless
    [skipDefaultValidationErrorMiddleware] is true, then the default
    HTTP-error handler unless [skipDefaultHttpErrorMiddleware] is true.
    With only [skipDefaultHttpErrorMiddleware: true] the stack ends with the
    validation default alone; without options it ends with both. *)
Theorem C4_combineControllers_stack :
  forall (pathRegexp : PathCompiler) (controllers : list Controller)
         (opts : option Options),
    Forall (controller_accepted pathRegexp) controllers ->
    exists fragments : list Router,
      Forall2 (fun c fragment =>
                 generateRouter pathRegexp c
                 = (([], Normal fragment) : Eff string Router))
              controllers fragments
      /\ snd (combineControllers pathRegexp controllers opts)
         = Normal
             (map (fun fragment => UseLayer "/" (Mounted fragment)) fragments
              ++ (if set_to_true opts skipDefaultValidationErrorMiddleware then []
                  else [UseLayer "/" defaultValidationErrorHandler])
              ++ (if set_to_true opts skipDefaultHttpErrorMiddleware then []
                  else [UseLayer "/" defaultHttpErrorMiddleware]))
      /\ snd (combineControllers pathRegexp controllers
                                 (Some (mkOptions (Some true) None)))
         = Normal
             (map (fun fragment => UseLayer "/" (Mounted fragment)) fragments
              ++ [UseLayer "/" defaultValidationErrorHandler])
      /\ snd (combineControllers pathRegexp controllers None)
         = Normal
             (map (fun fragment => UseLayer "/" (Mounted fragment)) fragments
              ++ [UseLayer "/" defaultValidationErrorHandler;
                  UseLayer "/" defaultHttpErrorMiddleware]).
Proof.
  intros pathRegexp controllers opts Hall.
  exists (map (fun c => [UseLayer (baseUrl (getClassMetadata c))
                                  (Mounted (inner_stack c))]) controllers).
  split; [|split; [|split]].
  - apply Forall2_map_right. intros c Hc. apply generateRouter_stack.
    rewrite Forall_forall in Hall. now apply Hall.
  - rewrite combineControllers_stack, map_map by exact Hall. reflexivity.
  - rewrite combineControllers_stack, map_map by exact Hall. reflexivity.
  - rewrite combineControllers_stack, map_map by exact Hall. reflexivity.
Qed.

(** The controllers [users] and [posts], with the default HTTP-error
    handler skipped. *)
Lemma C4_combineControllers_stack_witness :
  exists fragments : list Router,
    Forall2 (fun c fragment =>
               generateRouter rejecting_open_group c
               = (([], Normal fragment) : Eff string Router))
            [users; posts] fragments
    /\ snd (combineControllers rejecting_open_group [users; posts]
                               (Some (mkOptions (Some true) None)))
       = Normal
           (map (fun fragment => UseLayer "/" (Mounted fragment)) fragments
            ++ [UseLayer "/" defaultValidationErrorHandler]
            ++ [])
    /\ snd (combineControllers rejecting_open_group [users; posts]
                               (Some (mkOptions (Some true) None)))
       = Normal
           (map (fun fragment => UseLayer "/" (Mounted fragment)) fragments
            ++ [UseLayer "/" defaultValidationErrorHandler])
    /\ snd (combineControllers rejecting_open_group [users; posts] None)
       = Normal
           (map (fun fragment => UseLayer "/" (Mounted fragment)) fragments
            ++ [UseLayer "/" defaultValidationErrorHandler;
                UseLayer "/" defaultHttpErrorMiddleware]).
Proof.
  apply (C4_combineControllers_stack
           rejecting_open_group [users; posts]
           (Some (mkOptions (Some true) None))).
  repeat constructor.
Defined.

(** C4 without the condition on the patterns fails on the controllers [users] and [broken]: the
    registration of the route of [broken] throws, so [combineControllers]
    throws and returns no router. *)
Lemma C4_rejected_pattern_counterexample :
  combineControllers rejecting_open_group [users; broken] None
  = ([], Throw (SyntaxError "Invalid regular expression: Unterminated group"))
  /\ ~ (exists router : Router,
          snd (combineControllers rejecting_open_group [users; broken] None)
          = Normal router).
Proof. split; [reflexivity | intros [router H]; cbn in H; discriminate]. Qed.

(** C5, amended: for a controller whose base path and route paths Express
    compiles, [generateRouter] returns a router whose routes are, in
    metadata order, one per method entry: the entry's verb, its path, and
    the chain made of the validation middleware when the entry declares a
    validation, the entry's middlewares, the generated request handler and
    the entry's error middlewares. *)
Theorem C5_one_route_per_method :
  forall (E : Type) (pathRegexp : PathCompiler) (controller : Controller),
    controller_accepted pathRegexp controller ->
    exists router : Router,
      generateRouter pathRegexp controller = (([], Normal router) : Eff E Router)
      /\ List.length (routes router)
         = List.length (getMethodMetadata controller)
      /\ map (fun r => (r_method r, r_path r, r_chain r)) (routes router)
         = map (fun item =>
                  (method item, path item,
                   match validation item with
                   | Some v => [ValidationMiddleware (schema v) (v_options v)]
                   | None => []
                   end
                   ++ map Fn (middlewares item)
                   ++ [Generated (generateRequestHandler
                                    (member controller (methodName item))
                                    (paramsMetadata item))]
                   ++ map Fn (errorMiddlewares item)))
               (getMethodMetadata controller).
Proof.
  intros E pathRegexp controller Hok. eexists.
  split; [now apply generateRouter_stack|].
  rewrite generated_routes. split.
  - apply length_map.
  - rewrite map_map. reflexivity.
Qed.

(** The controller [users]. *)
Lemma C5_one_route_per_method_witness :
  exists router : Router,
    generateRouter rejecting_open_group users
    = (([], Normal router) : Eff string Router)
    /\ List.length (routes router) = 1%nat
    /\ map (fun r => (r_method r, r_path r, r_chain r)) (routes router)
       = [(post, "/",
           [ValidationMiddleware (VStr "UserSchema") VUndefined;
            Fn 8%nat;
            Generated (generateRequestHandler
                         create_user (Some [("bodyIndex", Some 0)]));
            Fn 9%nat])].
Proof.
  apply (C5_one_route_per_method string rejecting_open_group users).
  repeat constructor.
Defined.

(** C5 without the condition on the patterns fails on the controller [broken]: it has one method
    entry, and [generateRouter] throws while registering it. *)
Lemma C5_rejected_route_counterexample :
  generateRouter rejecting_open_group broken
  = (([], Throw (SyntaxError "Invalid regular expression: Unterminated group"))
     : Eff string Router)
  /\ ~ (exists router : Router,
          generateRouter rejecting_open_group broken
          = (([], Normal router) : Eff string Router)).
Proof. split; [reflexivity | intros [router H]; cbn in H; discriminate]. Qed.

(** C6, amended: for a controller whose base path and route paths Express
    compiles, the router of [generateRouter] is an outer router with one
    layer, the inner router mounted on the class's base path; the inner
    stack is the class-level validation middleware when one is declared, the
    class-level middlewares, the routes, the class-level error middlewares;
    every route of the outer router lies under the base path. *)
Theorem C6_class_level_order_and_base_path :
  forall (E : Type) (pathRegexp : PathCompiler) (controller : Controller),
    controller_accepted pathRegexp controller ->
    exists inner : Router,
      generateRouter pathRegexp controller
      = (([], Normal [UseLayer (baseUrl (getClassMetadata controller))
                               (Mounted inner)]) : Eff E Router)
      /\ inner
         = match c_validation (getClassMetadata controller) with
           | Some v => [UseLayer "/" (ValidationMiddleware (schema v) (v_options v))]
           | None => []
           end
           ++ map (fun f => UseLayer "/" (Fn f))
                  (c_middlewares (getClassMetadata controller))
           ++ map (route_layer controller) (getMethodMetadata controller)
           ++ map (fun f => UseLayer "/" (Fn f))
                  (c_errorMiddlewares (getClassMetadata controller))
      /\ Forall (fun r => r_prefix r = [baseUrl (getClassMetadata controller)])
                (routes [UseLayer (baseUrl (getClassMetadata controller))
                                  (Mounted inner)]).
Proof.
  intros E pathRegexp controller Hok. exists (inner_stack controller).
  split; [now apply generateRouter_stack|]. split; [reflexivity|].
  rewrite generated_routes. apply Forall_forall. intros r Hr.
  apply in_map_iff in Hr as (item & <- & _). reflexivity.
Qed.

(** The controller [users]. *)
Lemma C6_class_level_order_and_base_path_witness :
  exists inner : Router,
    generateRouter rejecting_open_group users
    = (([], Normal [UseLayer "/users" (Mounted inner)]) : Eff string Router)
    /\ inner
       = [] ++ [UseLayer "/" (Fn 7%nat)]
         ++ map (route_layer users) (getMethodMetadata users)
         ++ []
    /\ Forall (fun r => r_prefix r = ["/users"])
              (routes [UseLayer "/users" (Mounted inner)]).
Proof.
  apply (C6_class_level_order_and_base_path string rejecting_open_group users).
  repeat constructor.
Defined.

(** C6 without the condition on the patterns fails on the controller [unmountable], whose base
    path does not compile: the mount of the inner router on the outer one
    throws, and [generateRouter] returns no router. *)
Lemma C6_rejected_base_path_counterexample :
  generateRouter rejecting_open_group unmountable
  = (([], Throw (SyntaxError "Invalid regular expression: Unterminated group"))
     : Eff string Router)
  /\ ~ (exists inner : Router,
          generateRouter rejecting_open_group unmountable
          = (([], Normal [UseLayer (baseUrl (getClassMetadata unmountable))
                                   (Mounted inner)]) : Eff string Router)).
Proof. split; [reflexivity | intros [inner H]; cbn in H; discriminate]. Qed.

(** C9: on an empty list of controllers, and when neither skip option is
    true, [combineControllers] succeeds with a router holding the default
    validation-error handler and then the default HTTP-error handler, and
    nothing else. *)
Theorem C9_no_controllers :
  forall (pathRegexp : PathCompiler) (opts : option Options),
    set_to_true opts skipDefaultValidationErrorMiddleware = false ->
    set_to_true opts skipDefaultHttpErrorMiddleware = false ->
    combineControllers pathRegexp [] opts
    = (["Setting default validation error middleware";
        "Setting default http error middleware"],
       Normal [UseLayer "/" defaultValidationErrorHandler;
               UseLayer "/" defaultHttpErrorMiddleware]).
Proof.
  intros pathRegexp opts Hv Hh.
  rewrite combineControllers_stack by constructor.
  rewrite Hv, Hh. reflexivity.
Qed.

Lemma C9_no_controllers_witness :
  combineControllers rejecting_open_group [] None
  = (["Setting default validation error middleware";
      "Setting default http error middleware"],
     Normal [UseLayer "/" defaultValidationErrorHandler;
             UseLayer "/" defaultHttpErrorMiddleware]).
Proof.
  apply (C9_no_controllers rejecting_open_group None); reflexivity.
Defined.

(** The router of [users], and the two controllers combined without the
    default HTTP-error handler. *)
Example users_router_example :
  generateRouter rejecting_open_group users
  = (([], Normal
        [UseLayer "/users"
           (Mounted
              [UseLayer "/" (Fn 7%nat);
               RouteLayer "/" post
                 [ValidationMiddleware (VStr "UserSchema") VUndefined;
                  Fn 8%nat;
                  Generated (generateRequestHandler
                               create_user (Some [("bodyIndex", Some 0)]));
                  Fn 9%nat]])]) : Eff string Router).
Proof. reflexivity. Qed.

Example combine_example :
  combineControllers rejecting_open_group [users; posts]
                     (Some (mkOptions (Some true) None))
  = (["Setting default validation error middleware"],
     Normal
       [UseLayer "/"
          (Mounted [UseLayer "/users" (Mounted (inner_stack users))]);
        UseLayer "/"
          (Mounted [UseLayer "/posts" (Mounted [])]);
        UseLayer "/" defaultValidationErrorHandler]).
Proof. reflexivity. Qed.

Example users_routes_example :
  map (fun r => (r_prefix r, r_method r, r_path r))
      (routes [UseLayer "/users" (Mounted (inner_stack users))])
  = [(["/users"], post, "/")].
Proof. reflexivity. Qed.
(** ** Further properties of the argument extraction *)

Lemma generateSortedParams_Normal_inv (req res next : Value)
      (paramsIndex : ParamsObject) (args : list Value) :
  generateSortedParams req res next (Some paramsIndex) = Normal args ->
  is_nullish req = false.
Proof.
  unfold generateSortedParams.
  destruct req; cbn; intros H; (discriminate || reflexivity).
Qed.

(** X1: the extraction throws exactly when the request is null or
    undefined, or the handler was generated without a ParamsIndex. *)
Theorem X1_extraction_throws_iff :
  forall (req res next : Value) (paramsIndex : option ParamsObject),
    (exists e, generateSortedParams req res next paramsIndex = Throw e)
    <-> (is_nullish req = true \/ paramsIndex = None).
Proof.
  intros req res next paramsIndex. unfold generateSortedParams. split.
  - intros [e H]. destruct (is_nullish req) eqn:Hreq; [now left|].
    rewrite (destructure_object req Hreq) in H.
    destruct paramsIndex; [discriminate|now right].
  - intros [Hreq | ->].
    + destruct req; try discriminate; cbn; now eexists.
    + destruct (destructure req); now eexists.
Qed.

Lemma sorted_arguments (req res next : Value) (paramsIndex : ParamsObject)
      (args : list Value) :
  NoDup (Object_keys paramsIndex) ->
  generateSortedParams req res next (Some paramsIndex) = Normal args ->
  args = map value (sort_params (inserted req res next paramsIndex)).
Proof.
  intros Hkeys H.
  pose proof (generateSortedParams_Normal_inv _ _ _ _ _ H) as Hreq.
  rewrite (generateSortedParams_object req res next paramsIndex Hreq Hkeys) in H.
  now injection H as <-.
Qed.

Lemma inserted_value_in_arguments (req res next : Value) (paramsIndex : ParamsObject)
      (p : Param) :
  In p (inserted req res next paramsIndex) ->
  In (value p) (map value (sort_params (inserted req res next paramsIndex))).
Proof.
  intros Hp. apply in_map.
  apply (Permutation_in _ (Permutation_sym (sort_params_perm _))), Hp.
Qed.

Lemma bound_in_bindings (paramsIndex : ParamsObject) (k : string) (w : Z) :
  In (k, Some w) paramsIndex <-> In (k, w) (bindings paramsIndex).
Proof.
  unfold bindings. rewrite in_flat_map. split.
  - intros H. exists (k, Some w). split; [exact H|now left].
  - intros ([k' [w'|]] & Hin & Hkw); cbn in Hkw; [|contradiction].
    destruct Hkw as [Heq|[]]. now injection Heq as -> ->.
Qed.

Lemma resolve_unknown_key (f : Facets) (k : string) :
  (forall b, k <> binding_key b) -> resolve f k = VNull.
Proof.
  intros Hk. unfold resolve.
  destruct (String.eqb k "bodyIndex") eqn:E1;
    [apply String.eqb_eq in E1; now destruct (Hk Body)|].
  destruct (String.eqb k "paramsIndex") eqn:E2;
    [apply String.eqb_eq in E2; now destruct (Hk RouteParams)|].
  destruct (String.eqb k "queryIndex") eqn:E3;
    [apply String.eqb_eq in E3; now destruct (Hk Query)|].
  destruct (String.eqb k "fileIndex") eqn:E4;
    [apply String.eqb_eq in E4; now destruct (Hk File)|].
  destruct (String.eqb k "filesIndex") eqn:E5;
    [apply String.eqb_eq in E5; now destruct (Hk Files)|].
  reflexivity.
Qed.

(** X2: whatever the weights, ties included, the controller method gets
    3 + k arguments for k bound keys, and the request, the response and
    next are among them. *)
Theorem X2_argument_count :
  forall (req res next : Value) (paramsIndex : ParamsObject) (args : list Value),
    NoDup (Object_keys paramsIndex) ->
    generateSortedParams req res next (Some paramsIndex) = Normal args ->
    List.length args = (3 + List.length (bindings paramsIndex))%nat
    /\ In req args /\ In res args /\ In next args.
Proof.
  intros req res next paramsIndex args Hkeys H.
  rewrite (sorted_arguments _ _ _ _ _ Hkeys H).
  split; [|repeat split].
  - rewrite length_map, (Permutation_length (sort_params_perm _)).
    unfold inserted. now rewrite length_app, length_map.
  - apply (inserted_value_in_arguments req res next paramsIndex (mkParam 100 req None)).
    unfold inserted. cbn. auto.
  - apply (inserted_value_in_arguments req res next paramsIndex (mkParam 101 res None)).
    unfold inserted. cbn. auto.
  - apply (inserted_value_in_arguments req res next paramsIndex (mkParam 102 next None)).
    unfold inserted. cbn. auto.
Qed.

(** Three keys bound at the same weight 100 as the request. *)
Lemma X2_argument_count_witness :
  List.length [VObj []; VUndefined; VUndefined; VNull; VHost 1 []; VFun 2]
  = 6%nat
  /\ In (VObj []) [VObj []; VUndefined; VUndefined; VNull; VHost 1 []; VFun 2]
  /\ In (VHost 1 []) [VObj []; VUndefined; VUndefined; VNull; VHost 1 []; VFun 2]
  /\ In (VFun 2) [VObj []; VUndefined; VUndefined; VNull; VHost 1 []; VFun 2].
Proof.
  apply (X2_argument_count
           (VObj []) (VHost 1 []) (VFun 2)
           [("bodyIndex", Some 100); ("queryIndex", Some 100);
            ("userIndex", Some 100); ("fileIndex", None)]).
  - cbn. repeat constructor; cbn; intuition discriminate.
  - reflexivity.
Defined.

(** X3: every bound key contributes its value to the arguments, whatever
    the weights: a binding key contributes its facet of the request, and a
    bound key that is none of the five binding keys contributes null. *)
Theorem X3_bound_values :
  forall (req res next : Value) (paramsIndex : ParamsObject) (args : list Value)
         (k : string) (w : Z),
    NoDup (Object_keys paramsIndex) ->
    generateSortedParams req res next (Some paramsIndex) = Normal args ->
    In (k, Some w) paramsIndex ->
    (forall b, k = binding_key b -> In (facet b req) args)
    /\ ((forall b, k <> binding_key b) -> In VNull args).
Proof.
  intros req res next paramsIndex args k w Hkeys H Hin.
  rewrite (sorted_arguments _ _ _ _ _ Hkeys H).
  assert (Hv : In (resolve (facets_of req) k)
                  (map value (sort_params (inserted req res next paramsIndex)))).
  { apply (inserted_value_in_arguments req res next paramsIndex
             (mkParam w (resolve (facets_of req) k) (Some k))).
    unfold inserted. apply in_or_app. right.
    apply in_map_iff. exists (k, w). split; [reflexivity|].
    now apply bound_in_bindings. }
  split.
  - intros b ->. now rewrite <- resolve_binding.
  - intros Hk. now rewrite <- (resolve_unknown_key (facets_of req) k Hk).
Qed.

(** A key [userIndex] bound at weight 1. *)
Lemma X3_bound_values_witness :
  (forall b, "userIndex" = binding_key b ->
             In (facet b (VObj [("body", VStr "b")]))
                [VStr "b"; VNull; VObj [("body", VStr "b")]; VHost 1 []; VFun 2])
  /\ ((forall b, "userIndex" <> binding_key b) ->
      In VNull [VStr "b"; VNull; VObj [("body", VStr "b")]; VHost 1 []; VFun 2]).
Proof.
  apply (X3_bound_values
           (VObj [("body", VStr "b")]) (VHost 1 []) (VFun 2)
           [("bodyIndex", Some 0); ("userIndex", Some 1)]
           [VStr "b"; VNull; VObj [("body", VStr "b")]; VHost 1 []; VFun 2]
           "userIndex" 1).
  - cbn. repeat constructor; cbn; intuition discriminate.
  - reflexivity.
  - cbn. auto.
Defined.

(** ** Where the framework arguments stand *)

Lemma ascending_app (l1 l2 : list Param) :
  ascending l1 -> ascending l2 ->
  (forall a b, In a l1 -> In b l2 -> weight a <= weight b) ->
  ascending (l1 ++ l2).
Proof.
  unfold ascending. induction l1 as [|x t IH]; intros H1 H2 Hle; cbn.
  - exact H2.
  - apply StronglySorted_inv in H1 as [Ht Hx]. constructor.
    + apply IH; trivial. intros a b Ha Hb. apply Hle; [now right|trivial].
    + apply Forall_app. split; [exact Hx|].
      apply Forall_forall. intros b Hb. apply Hle; [now left|trivial].
Qed.

Lemma filter_none {A : Type} (P : A -> bool) (l : list A) :
  (forall x, In x l -> P x = false) -> filter P l = [].
Proof.
  induction l as [|x t IH]; intros H; cbn; [reflexivity|].
  rewrite (H x) by now left. apply IH. intros y Hy. apply H. now right.
Qed.

Lemma filter_filter_absorb {A : Type} (P Q : A -> bool) (l : list A) :
  (forall x, In x l -> P x = true -> Q x = true) ->
  filter P (filter Q l) = filter P l.
Proof.
  induction l as [|x t IH]; intros H; cbn; [reflexivity|].
  assert (IH' : filter P (filter Q t) = filter P t)
    by (apply IH; intros y Hy; apply H; now right).
  destruct (Q x) eqn:Qx; cbn.
  - now rewrite IH'.
  - destruct (P x) eqn:Px; [|exact IH'].
    rewrite (H x) in Qx; [discriminate|now left|exact Px].
Qed.

(** When no entry of [bound] has a weight between 100 and 102, the sort
    leaves the three reserved entries together. *)
Lemma sort_params_around_reserved (req res next : Value) (bound : list Param) :
  (forall p, In p bound -> weight p < 100 \/ 102 < weight p) ->
  sort_params ([mkParam 100 req None; mkParam 101 res None; mkParam 102 next None]
               ++ bound)
  = sort_params (filter (fun p => weight p <? 100) bound)
    ++ [mkParam 100 req None; mkParam 101 res None; mkParam 102 next None]
    ++ sort_params (filter (fun p => 102 <? weight p) bound).
Proof.
  intros Hout.
  set (reserved := [mkParam 100 req None; mkParam 101 res None; mkParam 102 next None]).
  assert (Hres : forall r, In r reserved -> 100 <= weight r <= 102).
  { intros r [<-|[<-|[<-|[]]]]; cbn; lia. }
  assert (Hlow : forall x, In x (sort_params (filter (fun p => weight p <? 100) bound)) ->
                           weight x < 100).
  { intros x Hx. apply (Permutation_in _ (sort_params_perm _)) in Hx.
    apply filter_In in Hx as [_ Hx]. now apply Z.ltb_lt in Hx. }
  assert (Hhigh : forall x, In x (sort_params (filter (fun p => 102 <? weight p) bound)) ->
                            102 < weight x).
  { intros x Hx. apply (Permutation_in _ (sort_params_perm _)) in Hx.
    apply filter_In in Hx as [_ Hx]. now apply Z.ltb_lt in Hx. }
  apply ascending_classes_unique.
  - apply sort_params_ascending.
  - apply ascending_app; [apply sort_params_ascending| |].
    + apply ascending_app; [|apply sort_params_ascending|].
      * unfold ascending, reserved. repeat constructor; cbn; lia.
      * intros a b Ha Hb. specialize (Hres a Ha). specialize (Hhigh b Hb). lia.
    + intros a b Ha Hb. specialize (Hlow a Ha).
      apply in_app_or in Hb as [Hb|Hb].
      * specialize (Hres b Hb). lia.
      * specialize (Hhigh b Hb). lia.
  - intros w.
    rewrite sort_params_stable, !filter_app, !sort_params_stable.
    destruct (Z.ltb_spec w 100) as [Hw|Hw].
    + rewrite (filter_none (has_weight w) reserved).
      2:{ intros r Hr. specialize (Hres r Hr). unfold has_weight.
          apply Z.eqb_neq. lia. }
      rewrite (filter_none (has_weight w) (filter (fun p => 102 <? weight p) bound)).
      2:{ intros x Hx. apply filter_In in Hx as [_ Hx]. apply Z.ltb_lt in Hx.
          unfold has_weight. apply Z.eqb_neq. lia. }
      rewrite filter_filter_absorb.
      2:{ intros x _ Hx. unfold has_weight in Hx. apply Z.eqb_eq in Hx.
          apply Z.ltb_lt. lia. }
      cbn. now rewrite app_nil_r.
    + rewrite (filter_none (has_weight w) (filter (fun p => weight p <? 100) bound)).
      2:{ intros x Hx. apply filter_In in Hx as [_ Hx]. apply Z.ltb_lt in Hx.
          unfold has_weight. apply Z.eqb_neq. lia. }
      cbn [app]. f_equal.
      destruct (Z.ltb_spec 102 w) as [Hw'|Hw'].
      * symmetry. apply filter_filter_absorb.
        intros x _ Hx. unfold has_weight in Hx. apply Z.eqb_eq in Hx.
        apply Z.ltb_lt. lia.
      * rewrite (filter_none (has_weight w) bound).
        2:{ intros x Hx. specialize (Hout x Hx). unfold has_weight.
            apply Z.eqb_neq. lia. }
        symmetry. apply filter_none.
        intros x Hx. apply filter_In in Hx as [Hx _].
        specialize (Hout x Hx). unfold has_weight. apply Z.eqb_neq. lia.
Qed.

Lemma filter_split_perm {A : Type} (P Q : A -> bool) (l : list A) :
  (forall x, In x l -> P x = negb (Q x)) ->
  Permutation (filter P l ++ filter Q l) l.
Proof.
  induction l as [|x t IH]; intros H; cbn; [constructor|].
  assert (IH' : Permutation (filter P t ++ filter Q t) t)
    by (apply IH; intros y Hy; apply H; now right).
  rewrite (H x) by now left.
  destruct (Q x); cbn.
  - eapply Permutation_trans;
      [apply Permutation_sym, Permutation_middle | now apply perm_skip].
  - now apply perm_skip.
Qed.

(** X4: when no bound weight lies between 100 and 102, the arguments are
    the values bound below 100 in ascending order of weight, then the
    request, the response and next, then the values bound above 102 in
    ascending order of weight. *)
Theorem X4_framework_arguments_between :
  forall (req res next : Value) (paramsIndex : ParamsObject),
    is_nullish req = false ->
    NoDup (Object_keys paramsIndex) ->
    (forall k w, In (k, Some w) paramsIndex -> w < 100 \/ 102 < w) ->
    exists before after : list Param,
      generateSortedParams req res next (Some paramsIndex)
      = Normal (map value before ++ [req; res; next] ++ map value after)
      /\ Permutation
           (before ++ after)
           (map (fun kw => mkParam (snd kw) (resolve (facets_of req) (fst kw))
                                   (Some (fst kw)))
                (bindings paramsIndex))
      /\ ascending before /\ Forall (fun p => weight p < 100) before
      /\ ascending after /\ Forall (fun p => 102 < weight p) after.
Proof.
  intros req res next paramsIndex Hreq Hkeys Hout.
  set (bound := map (fun kw => mkParam (snd kw) (resolve (facets_of req) (fst kw))
                                       (Some (fst kw)))
                    (bindings paramsIndex)).
  assert (Hbound : forall p, In p bound -> weight p < 100 \/ 102 < weight p).
  { intros p Hp. apply in_map_iff in Hp as ([k w] & <- & Hin). cbn.
    apply (Hout k w). now apply bound_in_bindings. }
  exists (sort_params (filter (fun p => weight p <? 100) bound)),
         (sort_params (filter (fun p => 102 <? weight p) bound)).
  split; [|split; [|split; [|split; [|split]]]].
  - rewrite (generateSortedParams_object req res next paramsIndex Hreq Hkeys).
    unfold inserted. fold bound.
    rewrite (sort_params_around_reserved req res next bound Hbound).
    now rewrite !map_app.
  - eapply Permutation_trans;
      [apply Permutation_app; apply sort_params_perm|].
    apply filter_split_perm. intros p Hp.
    destruct (Hbound p Hp);
      destruct (Z.ltb_spec (weight p) 100); destruct (Z.ltb_spec 102 (weight p));
      cbn; trivial; lia.
  - apply sort_params_ascending.
  - apply Forall_forall. intros p Hp.
    apply (Permutation_in _ (sort_params_perm _)) in Hp.
    apply filter_In in Hp as [_ Hp]. now apply Z.ltb_lt in Hp.
  - apply sort_params_ascending.
  - apply Forall_forall. intros p Hp.
    apply (Permutation_in _ (sort_params_perm _)) in Hp.
    apply filter_In in Hp as [_ Hp]. now apply Z.ltb_lt in Hp.
Qed.

(** A body bound at 0, a query at 1 and files at 200. *)
Lemma X4_framework_arguments_between_witness :
  exists before after : list Param,
    generateSortedParams
      (VObj [("body", VStr "b"); ("query", VStr "q")]) (VHost 1 []) (VFun 2)
      (Some [("filesIndex", Some 200); ("queryIndex", Some 1); ("bodyIndex", Some 0)])
    = Normal (map value before
              ++ [VObj [("body", VStr "b"); ("query", VStr "q")]; VHost 1 []; VFun 2]
              ++ map value after)
    /\ Permutation
         (before ++ after)
         (map (fun kw =>
                 mkParam (snd kw)
                         (resolve (facets_of (VObj [("body", VStr "b");
                                                    ("query", VStr "q")]))
                                  (fst kw))
                         (Some (fst kw)))
              (bindings [("filesIndex", Some 200); ("queryIndex", Some 1);
                         ("bodyIndex", Some 0)]))
    /\ ascending before /\ Forall (fun p => weight p < 100) before
    /\ ascending after /\ Forall (fun p => 102 < weight p) after.
Proof.
  apply (X4_framework_arguments_between
           (VObj [("body", VStr "b"); ("query", VStr "q")]) (VHost 1 []) (VFun 2)
           [("filesIndex", Some 200); ("queryIndex", Some 1); ("bodyIndex", Some 0)]).
  - reflexivity.
  - cbn. repeat constructor; cbn; intuition discriminate.
  - intros k w [H|[H|[H|[]]]]; injection H as _ <-; lia.
Defined.

Example between_example :
  generateSortedParams
    (VObj [("body", VStr "b"); ("query", VStr "q")]) (VHost 1 []) (VFun 2)
    (Some [("filesIndex", Some 200); ("queryIndex", Some 1); ("bodyIndex", Some 0)])
  = Normal [VStr "b"; VStr "q";
            VObj [("body", VStr "b"); ("query", VStr "q")]; VHost 1 []; VFun 2;
            VUndefined].
Proof. reflexivity. Qed.

(** A strictly ascending list of [n] integers taken from [a .. a + n - 1]
    holds [a + i] at index [i]. *)
Lemma strictly_ascending_range (l : list Z) :
  forall a : Z,
    StronglySorted Z.lt l ->
    (forall x, In x l -> a <= x < a + Z.of_nat (List.length l)) ->
    forall i x, nth_error l i = Some x -> x = a + Z.of_nat i.
Proof.
  induction l as [|h t IH]; intros a Hs Hrange i x Hi.
  - destruct i; discriminate.
  - apply StronglySorted_inv in Hs as [Ht Hh]. rewrite Forall_forall in Hh.
    assert (Hh_range : a <= h < a + Z.of_nat (List.length (h :: t)))
      by (apply Hrange; now left).
    assert (IHt : forall j y, nth_error t j = Some y -> y = (a + 1) + Z.of_nat j).
    { apply IH; [exact Ht|]. intros y Hy.
      specialize (Hh y Hy).
      assert (a <= y < a + Z.of_nat (List.length (h :: t)))
        by (apply Hrange; now right).
      cbn [List.length] in *. lia. }
    assert (Hha : h = a).
    { destruct t as [|y t'].
      - cbn in Hh_range. lia.
      - specialize (IHt 0%nat y eq_refl). specialize (Hh y (or_introl eq_refl)).
        cbn in IHt. lia. }
    destruct i as [|j]; cbn in Hi.
    + injection Hi as <-. cbn. lia.
    + specialize (IHt j x Hi). lia.
Qed.

Lemma sort_params_below_reserved (req res next : Value) (bound : list Param) :
  (forall p, In p bound -> weight p < 100) ->
  sort_params ([mkParam 100 req None; mkParam 101 res None; mkParam 102 next None]
               ++ bound)
  = sort_params bound
    ++ [mkParam 100 req None; mkParam 101 res None; mkParam 102 next None].
Proof.
  intros Hlow.
  rewrite sort_params_around_reserved by (intros p Hp; left; now apply Hlow).
  rewrite forallb_filter_id.
  2:{ apply forallb_forall. intros p Hp. apply Z.ltb_lt. now apply Hlow. }
  rewrite (filter_none (fun p => 102 <? weight p) bound).
  2:{ intros p Hp. specialize (Hlow p Hp). apply Z.ltb_ge. lia. }
  cbn [sort_params]. now rewrite app_nil_r.
Qed.

(** X5: when the k bound keys carry the weights 0 .. k-1, each once (the
    parameter positions of the decorated method), the argument at position
    w is the value of the key bound at w, and the request, the response and
    next are the arguments at positions k, k+1 and k+2. *)
Theorem X5_arguments_at_their_positions :
  forall (req res next : Value) (paramsIndex : ParamsObject),
    is_nullish req = false ->
    NoDup (Object_keys paramsIndex) ->
    NoDup (map snd (bindings paramsIndex)) ->
    (forall k w, In (k, Some w) paramsIndex ->
                 0 <= w < Z.of_nat (List.length (bindings paramsIndex))) ->
    (List.length (bindings paramsIndex) <= 100)%nat ->
    exists args : list Value,
      generateSortedParams req res next (Some paramsIndex) = Normal args
      /\ (forall k w, In (k, Some w) paramsIndex ->
                      nth_error args (Z.to_nat w)
                      = Some (resolve (facets_of req) k))
      /\ nth_error args (List.length (bindings paramsIndex)) = Some req
      /\ nth_error args (S (List.length (bindings paramsIndex))) = Some res
      /\ nth_error args (S (S (List.length (bindings paramsIndex)))) = Some next.
Proof.
  intros req res next paramsIndex Hreq Hkeys Hdistinct Hrange Hsmall.
  set (n := List.length (bindings paramsIndex)) in *.
  set (bound := map (fun kw => mkParam (snd kw) (resolve (facets_of req) (fst kw))
                                       (Some (fst kw)))
                    (bindings paramsIndex)).
  assert (Hweights : map weight bound = map snd (bindings paramsIndex))
    by (unfold bound; now rewrite map_map).
  assert (Hbound : forall p, In p bound -> 0 <= weight p < Z.of_nat n).
  { intros p Hp. apply in_map_iff in Hp as ([k w] & <- & Hin). cbn.
    apply (Hrange k w). now apply bound_in_bindings. }
  assert (Hperm : Permutation (sort_params bound) bound) by apply sort_params_perm.
  assert (Hlen : List.length (map value (sort_params bound)) = n).
  { rewrite length_map, (Permutation_length Hperm). unfold bound, n.
    apply length_map. }
  assert (Hindex : forall i p, nth_error (sort_params bound) i = Some p ->
                               weight p = Z.of_nat i).
  { intros i p Hi.
    apply (strictly_ascending_range (map weight (sort_params bound)) 0).
    - apply (StronglySorted_map Z.lt). apply ascending_strict.
      + apply sort_params_ascending.
      + apply (Permutation_NoDup (l := map weight bound)).
        * apply Permutation_map. now apply Permutation_sym.
        * now rewrite Hweights.
    - intros x Hx. apply in_map_iff in Hx as (p' & <- & Hp').
      apply (Permutation_in _ Hperm) in Hp'.
      rewrite length_map, (Permutation_length Hperm).
      replace (List.length bound) with n
        by (unfold bound, n; now rewrite length_map).
      specialize (Hbound p' Hp'). lia.
    - now apply map_nth_error. }
  exists (map value (sort_params bound) ++ [req; res; next]).
  split; [|split; [|split; [|split]]].
  - rewrite (generateSortedParams_object req res next paramsIndex Hreq Hkeys).
    unfold inserted. fold bound.
    rewrite sort_params_below_reserved.
    + now rewrite map_app.
    + intros p Hp. specialize (Hbound p Hp). lia.
  - intros k w Hin.
    assert (Hp : In (mkParam w (resolve (facets_of req) k) (Some k))
                    (sort_params bound)).
    { apply (Permutation_in _ (Permutation_sym Hperm)).
      unfold bound. apply in_map_iff. exists (k, w). split; [reflexivity|].
      now apply bound_in_bindings. }
    apply In_nth_error in Hp as [i Hi].
    pose proof (Hindex i _ Hi) as Hw. cbn in Hw. subst w.
    rewrite Nat2Z.id.
    rewrite nth_error_app1.
    + now rewrite (map_nth_error value i (sort_params bound) Hi).
    + rewrite length_map. apply nth_error_Some. congruence.
  - rewrite nth_error_app2 by (rewrite Hlen; lia).
    rewrite Hlen, Nat.sub_diag. reflexivity.
  - rewrite nth_error_app2 by (rewrite Hlen; lia).
    rewrite Hlen. replace (S n - n)%nat with 1%nat by lia. reflexivity.
  - rewrite nth_error_app2 by (rewrite Hlen; lia).
    rewrite Hlen. replace (S (S n) - n)%nat with 2%nat by lia. reflexivity.
Qed.

(** A method declared as [m(@body b, @query q)]. *)
Lemma X5_arguments_at_their_positions_witness :
  exists args : list Value,
    generateSortedParams
      (VObj [("body", VStr "b"); ("query", VStr "q")]) (VHost 1 []) (VFun 2)
      (Some [("queryIndex", Some 1); ("bodyIndex", Some 0)])
    = Normal args
    /\ (forall k w,
           In (k, Some w) [("queryIndex", Some 1); ("bodyIndex", Some 0)] ->
           nth_error args (Z.to_nat w)
           = Some (resolve (facets_of (VObj [("body", VStr "b");
                                             ("query", VStr "q")])) k))
    /\ nth_error args 2 = Some (VObj [("body", VStr "b"); ("query", VStr "q")])
    /\ nth_error args 3 = Some (VHost 1 [])
    /\ nth_error args 4 = Some (VFun 2).
Proof.
  apply (X5_arguments_at_their_positions
           (VObj [("body", VStr "b"); ("query", VStr "q")]) (VHost 1 []) (VFun 2)
           [("queryIndex", Some 1); ("bodyIndex", Some 0)]).
  - reflexivity.
  - cbn. repeat constructor; cbn; intuition discriminate.
  - cbn. repeat constructor; cbn; intuition discriminate.
  - intros k w [H|[H|[]]]; injection H as _ <-; cbn; lia.
  - cbn. lia.
Defined.

Lemma strictly_ascending_perm_unique (l1 l2 : list Param) :
  StronglySorted (fun a b => weight a < weight b) l1 ->
  StronglySorted (fun a b => weight a < weight b) l2 ->
  Permutation l1 l2 -> l1 = l2.
Proof.
  revert l2. induction l1 as [|a t1 IH]; intros l2 H1 H2 Hperm.
  - apply Permutation_nil in Hperm. now subst.
  - destruct l2 as [|b t2].
    + apply Permutation_sym, Permutation_nil in Hperm. discriminate.
    + apply StronglySorted_inv in H1 as [H1 Ha].
      apply StronglySorted_inv in H2 as [H2 Hb].
      rewrite Forall_forall in Ha, Hb.
      assert (Heq : a = b).
      { assert (Ha_in : In a (b :: t2))
          by (apply (Permutation_in _ Hperm); now left).
        assert (Hb_in : In b (a :: t1))
          by (apply (Permutation_in _ (Permutation_sym Hperm)); now left).
        destruct Ha_in as [->|Ha_in]; [reflexivity|].
        destruct Hb_in as [->|Hb_in]; [reflexivity|].
        specialize (Ha _ Hb_in). specialize (Hb _ Ha_in). lia. }
      subst b. f_equal. apply IH; trivial.
      now apply Permutation_cons_inv with a.
Qed.

Lemma sort_params_strict (req res next : Value) (paramsIndex : ParamsObject) :
  NoDup (100 :: 101 :: 102 :: map snd (bindings paramsIndex)) ->
  StronglySorted (fun a b => weight a < weight b)
                 (sort_params (inserted req res next paramsIndex)).
Proof.
  intros Hnd. apply ascending_strict; [apply sort_params_ascending|].
  apply (Permutation_NoDup (l := map weight (inserted req res next paramsIndex))).
  - apply Permutation_map, Permutation_sym, sort_params_perm.
  - now rewrite inserted_weights.
Qed.

(** X6: without ties, the arguments do not depend on the order in which
    the ParamsIndex lists its keys: two ParamsIndex objects with the same
    properties give the same argument list, or the same thrown error. *)
Theorem X6_key_order_irrelevant_without_ties :
  forall (req res next : Value) (paramsIndex paramsIndex' : ParamsObject),
    Permutation paramsIndex paramsIndex' ->
    NoDup (Object_keys paramsIndex) ->
    NoDup (100 :: 101 :: 102 :: map snd (bindings paramsIndex)) ->
    generateSortedParams req res next (Some paramsIndex)
    = generateSortedParams req res next (Some paramsIndex').
Proof.
  intros req res next paramsIndex paramsIndex' Hperm Hkeys Hnd.
  destruct (is_nullish req) eqn:Hreq.
  - unfold generateSortedParams. destruct req; try discriminate; reflexivity.
  - assert (Hkeys' : NoDup (Object_keys paramsIndex'))
      by (apply (Permutation_NoDup (l := Object_keys paramsIndex));
          [now apply Permutation_map | exact Hkeys]).
    assert (Hb : Permutation (bindings paramsIndex) (bindings paramsIndex'))
      by (unfold bindings; now apply Permutation_flat_map).
    assert (Hnd' : NoDup (100 :: 101 :: 102 :: map snd (bindings paramsIndex'))).
    { apply (Permutation_NoDup
               (l := 100 :: 101 :: 102 :: map snd (bindings paramsIndex)));
        [|exact Hnd].
      do 3 apply perm_skip. now apply Permutation_map. }
    rewrite !generateSortedParams_object by trivial.
    do 2 f_equal.
    apply strictly_ascending_perm_unique; try now apply sort_params_strict.
    eapply Permutation_trans; [apply sort_params_perm|].
    eapply Permutation_trans; [|apply Permutation_sym, sort_params_perm].
    unfold inserted. apply Permutation_app_head. now apply Permutation_map.
Qed.

(** The same three bindings, listed in two orders. *)
Lemma X6_key_order_irrelevant_without_ties_witness :
  generateSortedParams
    (VObj [("body", VStr "b"); ("query", VStr "q")]) (VHost 1 []) (VFun 2)
    (Some [("queryIndex", Some 1); ("fileIndex", None); ("bodyIndex", Some 0)])
  = generateSortedParams
      (VObj [("body", VStr "b"); ("query", VStr "q")]) (VHost 1 []) (VFun 2)
      (Some [("bodyIndex", Some 0); ("queryIndex", Some 1); ("fileIndex", None)]).
Proof.
  apply (X6_key_order_irrelevant_without_ties
           (VObj [("body", VStr "b"); ("query", VStr "q")]) (VHost 1 []) (VFun 2)
           [("queryIndex", Some 1); ("fileIndex", None); ("bodyIndex", Some 0)]
           [("bodyIndex", Some 0); ("queryIndex", Some 1); ("fileIndex", None)]).
  - apply (Permutation_trans
             (l' := [("queryIndex", Some 1); ("bodyIndex", Some 0);
                     ("fileIndex", None)])).
    + apply perm_skip, perm_swap.
    + apply perm_swap.
  - cbn. repeat constructor; cbn; intuition discriminate.
  - cbn. repeat constructor; cbn; intuition discriminate.
Defined.

(** With a tie the order of the keys shows in the arguments. *)
Example key_order_matters_on_ties :
  generateSortedParams
    (VObj [("body", VStr "b"); ("query", VStr "q")]) (VHost 1 []) (VFun 2)
    (Some [("queryIndex", Some 0); ("bodyIndex", Some 0)])
  <> generateSortedParams
       (VObj [("body", VStr "b"); ("query", VStr "q")]) (VHost 1 []) (VFun 2)
       (Some [("bodyIndex", Some 0); ("queryIndex", Some 0)]).
Proof. cbn. discriminate. Qed.

(** ** Further properties of the handler and of the routers *)

(** X7: on every request the generated handler completes normally; it
    calls the controller method at most once and next at most once; its
    calls on the response are none, or one [res.status] followed by one
    [res.json]; and it never ends having neither called the response nor
    called next. *)
Theorem X7_one_outcome_per_request :
  forall (f : ControllerFunction) (pi : option ParamsObject)
         (req res next : Value),
    (exists v, snd (generateRequestHandler f pi req res next) = Normal v)
    /\ (List.length (invocations (fst (generateRequestHandler f pi req res next)))
        <= 1)%nat
    /\ (List.length (next_calls (fst (generateRequestHandler f pi req res next)))
        <= 1)%nat
    /\ (response_writes (fst (generateRequestHandler f pi req res next)) = []
        \/ exists status payload,
            response_writes (fst (generateRequestHandler f pi req res next))
            = [ResStatus status; ResJson payload])
    /\ (next_calls (fst (generateRequestHandler f pi req res next)) <> []
        \/ response_writes (fst (generateRequestHandler f pi req res next)) <> []).
Proof.
  intros f pi req res next.
  destruct (handler_cases f pi req res next) as [(e & He) | (args & H & Hcase)].
  - rewrite (handler_extraction_throws f pi req res next e He). cbn.
    split; [now eexists|]. repeat split; try lia; [now left|left; discriminate].
  - destruct Hcase as [(e & Hf) | [(status & json & Hf & Hs)
                                  | [(status & json & Hf & Hs) | (v & Hf & Hv)]]].
    + rewrite (handler_method_throws f pi req res next e args H Hf). cbn.
      split; [now eexists|]. repeat split; try lia; [now left|left; discriminate].
    + rewrite (handler_HttpResponse f pi req res next args status json H Hf Hs).
      cbn. split; [now eexists|].
      repeat split; try lia; [right; now exists status, json|right; discriminate].
    + rewrite (handler_invalid_status f pi req res next args status json H Hf Hs).
      cbn. split; [now eexists|].
      repeat split; try lia; [right; now exists status, json|left; discriminate].
    + rewrite (handler_bare_value f pi req res next v args H Hf Hv). cbn.
      split; [now eexists|].
      repeat split; try lia; [right; now exists 200, v|right; discriminate].
Qed.



Lemma inner_stack_routes (prefix : list string) (controller : Controller) :
  flat_map (layer_routes prefix) (inner_stack controller)
  = map (fun item => mkRoute prefix (method item) (path item)
                             (chain_of controller item))
        (getMethodMetadata controller).
Proof.
  unfold inner_stack.
  rewrite !flat_map_app, !use_functions_no_routes, route_layers_routes.
  rewrite app_nil_r.
  destruct (c_validation (getClassMetadata controller)); reflexivity.
Qed.

Lemma mounted_fragments_routes (controllers : list Controller) :
  flat_map (layer_routes [])
           (map (fun c => UseLayer "/"
                            (Mounted [UseLayer (baseUrl (getClassMetadata c))
                                               (Mounted (inner_stack c))]))
                controllers)
  = flat_map (fun c =>
                map (fun item => mkRoute ["/"; baseUrl (getClassMetadata c)]
                                         (method item) (path item)
                                         (chain_of c item))
                    (getMethodMetadata c))
             controllers.
Proof.
  induction controllers as [|c rest IH]; [reflexivity|].
  cbn [map flat_map]. rewrite IH. f_equal.
  cbn [layer_routes app]. rewrite stack_routes_flat_map.
  cbn [flat_map layer_routes app]. rewrite app_nil_r, stack_routes_flat_map.
  apply inner_stack_routes.
Qed.

(** X8: for controllers whose patterns compile, the routes of the combined
    router are the routes of the controllers, controller after controller
    in input order and, within a controller, in metadata order; each lies
    under the root mount and then under its own controller's base path, and
    the default handlers add no route. *)
Theorem X8_combined_routes :
  forall (pathRegexp : PathCompiler) (controllers : list Controller)
         (opts : option Options),
    Forall (controller_accepted pathRegexp) controllers ->
    exists router : Router,
      snd (combineControllers pathRegexp controllers opts) = Normal router
      /\ routes router
         = flat_map (fun c =>
                       map (fun item =>
                              mkRoute ["/"; baseUrl (getClassMetadata c)]
                                      (method item) (path item) (chain_of c item))
                           (getMethodMetadata c))
                    controllers.
Proof.
  intros pathRegexp controllers opts Hall. eexists. split.
  - rewrite combineControllers_stack by exact Hall. reflexivity.
  - unfold routes. rewrite stack_routes_flat_map, !flat_map_app.
    rewrite mounted_fragments_routes.
    destruct (set_to_true opts skipDefaultValidationErrorMiddleware);
      destruct (set_to_true opts skipDefaultHttpErrorMiddleware);
      cbn; now rewrite app_nil_r.
Qed.

(** The controllers [users] and [posts], without options. *)
Lemma X8_combined_routes_witness :
  exists router : Router,
    snd (combineControllers rejecting_open_group [users; posts] None)
    = Normal router
    /\ routes router
       = flat_map (fun c =>
                     map (fun item =>
                            mkRoute ["/"; baseUrl (getClassMetadata c)]
                                    (method item) (path item) (chain_of c item))
                         (getMethodMetadata c))
                  [users; posts].
Proof.
  apply (X8_combined_routes rejecting_open_group [users; posts] None).
  repeat constructor.
Defined.

(** X9: for controllers whose patterns compile, [combineControllers] logs
    one line for each default handler it installs, the validation line
    first, and nothing else. *)
Theorem X9_one_log_line_per_default :
  forall (pathRegexp : PathCompiler) (controllers : list Controller)
         (opts : option Options),
    Forall (controller_accepted pathRegexp) controllers ->
    fst (combineControllers pathRegexp controllers opts)
    = (if set_to_true opts skipDefaultValidationErrorMiddleware then []
       else ["Setting default validation error middleware"])
      ++ (if set_to_true opts skipDefaultHttpErrorMiddleware then []
          else ["Setting default http error middleware"]).
Proof.
  intros pathRegexp controllers opts Hall.
  now rewrite combineControllers_stack by exact Hall.
Qed.

(** The controllers [users] and [posts], with the validation default
    skipped. *)
Lemma X9_one_log_line_per_default_witness :
  fst (combineControllers rejecting_open_group [users; posts]
                          (Some (mkOptions None (Some true))))
  = ["Setting default http error middleware"].
Proof.
  apply (X9_one_log_line_per_default
           rejecting_open_group [users; posts]
           (Some (mkOptions None (Some true)))).
  repeat constructor.
Defined.

(** X12: [generateRouter] throws exactly when the compiler rejects the path
    of one of the controller's routes or its base path. *)
Theorem X12_generateRouter_throws_iff :
  forall (E : Type) (pathRegexp : PathCompiler) (controller : Controller),
    (exists e, snd (generateRouter pathRegexp controller : Eff E Router) = Throw e)
    <-> controller_rejected pathRegexp controller.
Proof.
  intros E pathRegexp controller. split.
  - intros [e He].
    destruct (controller_accepted_or_rejected pathRegexp controller)
      as [Hok | Hrej]; [|exact Hrej].
    rewrite (generateRouter_stack E pathRegexp controller Hok) in He.
    discriminate.
  - intros Hrej.
    destruct (generateRouter_rejected E pathRegexp controller Hrej) as [e He].
    exists e. now rewrite He.
Qed.

(** X13: [combineControllers] throws exactly when the compiler rejects a
    pattern of one of the controllers; it throws before either default
    handler is installed, so nothing has been logged. *)
Theorem X13_combineControllers_throws_iff :
  forall (pathRegexp : PathCompiler) (controllers : list Controller)
         (opts : option Options),
    ((exists e, snd (combineControllers pathRegexp controllers opts) = Throw e)
     <-> Exists (controller_rejected pathRegexp) controllers)
    /\ (Exists (controller_rejected pathRegexp) controllers
        <-> exists e, combineControllers pathRegexp controllers opts = ([], Throw e)).
Proof.
  intros pathRegexp controllers opts.
  assert (Hthrow : (exists e, snd (combineControllers pathRegexp controllers opts)
                              = Throw e)
                   -> Exists (controller_rejected pathRegexp) controllers).
  { intros [e He].
    destruct (controllers_accepted_or_rejected pathRegexp controllers)
      as [Hok | Hrej]; [|exact Hrej].
    rewrite (combineControllers_stack pathRegexp controllers opts Hok) in He.
    discriminate. }
  split; split.
  - exact Hthrow.
  - intros Hrej.
    destruct (combineControllers_rejected pathRegexp controllers opts Hrej)
      as [e He].
    exists e. now rewrite He.
  - apply combineControllers_rejected.
  - intros [e He]. apply Hthrow. exists e. now rewrite He.
Qed.

(** A controller after [broken] is never reached. *)
Example broken_first_example :
  combineControllers rejecting_open_group [broken; users] None
  = ([], Throw (SyntaxError "Invalid regular expression: Unterminated group")).
Proof. reflexivity. Qed.

Lemma bindings_drop_undefined (paramsIndex : ParamsObject) :
  bindings (filter (fun kw => is_set (snd kw)) paramsIndex) = bindings paramsIndex.
Proof.
  unfold bindings. induction paramsIndex as [|[k [w|]] t IH]; cbn.
  - reflexivity.
  - now rewrite IH.
  - exact IH.
Qed.

Lemma NoDup_keys_filter {A : Type} (P : string * A -> bool) (l : list (string * A)) :
  NoDup (map fst l) -> NoDup (map fst (filter P l)).
Proof.
  induction l as [|x t IH]; cbn; intros Hnd; [constructor|].
  apply NoDup_cons_iff in Hnd as [Hnotin Hnd].
  destruct (P x); cbn; [|now apply IH].
  constructor; [|now apply IH].
  intros Hin. apply Hnotin.
  apply in_map_iff in Hin as (y & Hy & Hin).
  apply filter_In in Hin as [Hin _].
  rewrite <- Hy. now apply in_map.
Qed.

(** X10: a ParamsIndex property that holds undefined counts as absent:
    dropping such properties changes neither the arguments nor the thrown
    error. *)
Theorem X10_undefined_properties_ignored :
  forall (req res next : Value) (paramsIndex : ParamsObject),
    NoDup (Object_keys paramsIndex) ->
    generateSortedParams req res next (Some paramsIndex)
    = generateSortedParams req res next
        (Some (filter (fun kw => is_set (snd kw)) paramsIndex)).
Proof.
  intros req res next paramsIndex Hkeys.
  destruct (is_nullish req) eqn:Hreq.
  - unfold generateSortedParams. destruct req; try discriminate; reflexivity.
  - rewrite !generateSortedParams_object; trivial.
    + unfold inserted. now rewrite bindings_drop_undefined.
    + now apply NoDup_keys_filter.
Qed.

(** The five keys, two of them bound. *)
Lemma X10_undefined_properties_ignored_witness :
  generateSortedParams
    (VObj [("body", VStr "b")]) (VHost 1 []) (VFun 2)
    (Some [("bodyIndex", Some 0); ("paramsIndex", None); ("queryIndex", Some 1);
           ("fileIndex", None); ("filesIndex", None)])
  = generateSortedParams
      (VObj [("body", VStr "b")]) (VHost 1 []) (VFun 2)
      (Some (filter (fun kw => is_set (snd kw))
                    [("bodyIndex", Some 0); ("paramsIndex", None);
                     ("queryIndex", Some 1); ("fileIndex", None);
                     ("filesIndex", None)])).
Proof.
  apply (X10_undefined_properties_ignored
           (VObj [("body", VStr "b")]) (VHost 1 []) (VFun 2)
           [("bodyIndex", Some 0); ("paramsIndex", None); ("queryIndex", Some 1);
            ("fileIndex", None); ("filesIndex", None)]).
  cbn. repeat constructor; cbn; intuition discriminate.
Defined.
